(** * sqlite_database: a shallow embedding of the C++ wrapper

    The development follows [src/include/sqlite_database/sqlite_database.h]
    and [src/src/sqlite_database.cpp].  The three classes of the wrapper
    ([Query], [Transaction], [SqliteDatabase]) become records; their member
    functions become computations in a small state-and-exception monad, so
    that a C++ [throw] keeps every mutation made before it.  The SQLite C
    library is an interface ([NativeEngine]) whose state is threaded through
    the calls; a small instance ([echo_engine]) is used to run the wrapper on
    concrete inputs. *)

From Stdlib Require Import ZArith List Bool Ascii String DecimalString Lia.
From Equations Require Import Equations.
Import ListNotations.

Open Scope string_scope.
Open Scope Z_scope.

(** ** Integer types and conversions *)

Definition INT64_MAX : Z := 9223372036854775807.
Definition INT64_MIN : Z := -9223372036854775808.
Definition UINT32_MAX : Z := 4294967295.

(** [static_cast<int64_t>] of an integer: reduction modulo 2^64 into the
    signed range. *)
Definition to_int64 (v : Z) : Z := (v + 2 ^ 63) mod 2 ^ 64 - 2 ^ 63.

(** conversion to [uint64_t] / [uint32_t] / [int] (what [return value;] does
    in the unsigned getters, and what the native 32-bit read does). *)
Definition to_uint64 (v : Z) : Z := v mod 2 ^ 64.
Definition to_uint32 (v : Z) : Z := v mod 2 ^ 32.
Definition to_int32 (v : Z) : Z := (v + 2 ^ 31) mod 2 ^ 32 - 2 ^ 31.

(** ** Result codes and storage classes of the native library *)

Definition SQLITE_OK : Z := 0.
Definition SQLITE_BUSY : Z := 5.
Definition SQLITE_MISUSE : Z := 21.
Definition SQLITE_RANGE : Z := 25.
Definition SQLITE_ROW : Z := 100.
Definition SQLITE_DONE : Z := 101.
Definition SQLITE_INTEGER : Z := 1.
Definition SQLITE_TEXT : Z := 3.
Definition SQLITE_NULL : Z := 5.

(** ** Characters and the text buffer *)

(** [isspace] in the "C" locale: space, and the controls \t \n \v \f \r. *)
Definition isspace (c : ascii) : bool :=
  let n := N_of_ascii c in
  (N.eqb n 32 || (N.leb 9 n && N.leb n 13))%bool.

Definition isdigit (c : ascii) : bool :=
  let n := N_of_ascii c in (N.leb 48 n && N.leb n 57)%bool.

(** [std::string::empty] and [std::string::back].  [back] is only called on
    a non-empty string (the source guards it with [!empty() &&]); on the
    empty string the model returns the zero character. *)
Definition empty (s : string) : bool :=
  match s with EmptyString => true | String _ _ => false end.

Fixpoint back (s : string) : ascii :=
  match s with
  | EmptyString => Ascii.zero
  | String c EmptyString => c
  | String _ r => back r
  end.

(** The guard shared by the text appends and [add_array]:
    [!ss.str().empty() && !isspace(ss.str().back())]. *)
Definition wants_separator (buf : string) : bool :=
  (negb (empty buf) && negb (isspace (back buf)))%bool.

(** ** Exceptions and the computation monad *)

Inductive exception : Type :=
| DatabaseException (message : string)
| invalid_argument (what : string)
| out_of_range (what : string).

Inductive outcome (A : Type) : Type :=
| Returns (a : A)
| Throws (e : exception).
Arguments Returns {A} a.
Arguments Throws {A} e.

Module Cpp.

(** A computation over a state [S]: it ends by returning or by throwing,
    and in both cases leaves a state behind. *)
Definition M (S A : Type) : Type := S -> outcome A * S.

Definition ret {S A} (a : A) : M S A := fun s => (Returns a, s).
Definition throw {S A} (e : exception) : M S A := fun s => (Throws e, s).
Definition bind {S A B} (m : M S A) (k : A -> M S B) : M S B :=
  fun s => match m s with
           | (Returns a, s') => k a s'
           | (Throws e, s') => (Throws e, s')
           end.
Definition get {S} : M S S := fun s => (Returns s, s).
Definition modify {S} (f : S -> S) : M S unit := fun s => (Returns tt, f s).

(** [try { m } catch (const std::exception &e) { h e }]: every exception of
    the model derives from [std::exception]. *)
Definition try_catch {S A} (m : M S A) (h : exception -> M S A) : M S A :=
  fun s => match m s with
           | (Returns a, s') => (Returns a, s')
           | (Throws e, s') => h e s'
           end.

(** Running a computation of a component inside a larger state. *)
Definition zoom {S T A} (proj : T -> S) (inj : S -> T -> T) (m : M S A) : M T A :=
  fun t => let '(r, s') := m (proj t) in (r, inj s' t).

End Cpp.
Import Cpp.

Declare Scope cpp_scope.
Delimit Scope cpp_scope with cpp.
Notation "x <- c ;; k" := (bind c (fun x => k))
  (at level 100, c at next level, right associativity) : cpp_scope.
Notation "c ;; k" := (bind c (fun _ => k))
  (at level 100, right associativity) : cpp_scope.
Open Scope cpp_scope.

(** [what()] of an exception. *)
Definition what (e : exception) : string :=
  match e with
  | DatabaseException m => m
  | invalid_argument w => w
  | out_of_range w => w
  end.

(** ** The native library *)

(** The SQLite C API as the wrapper uses it.  [engine] is the state of the
    library (open connections, prepared statements, their bindings and
    current rows); pointers are [option]s of handles, [None] being
    [nullptr].  Calls that only read take the state; calls that may change
    it return the new one.  Result codes are the C [int]s. *)
Class NativeEngine : Type := {
  engine : Type;
  sqlite3 : Type;
  sqlite3_stmt : Type;
  double : Type;
  sqlite3_errmsg : engine -> sqlite3 -> string;
  (* returns the result code, the value stored in [*ppStmt], the new state *)
  sqlite3_prepare_v2 :
    engine -> option sqlite3 -> string -> Z * option sqlite3_stmt * engine;
  sqlite3_column_count : engine -> option sqlite3_stmt -> Z;
  sqlite3_bind_int : engine -> option sqlite3_stmt -> Z -> Z -> Z * engine;
  sqlite3_bind_int64 : engine -> option sqlite3_stmt -> Z -> Z -> Z * engine;
  sqlite3_bind_null : engine -> option sqlite3_stmt -> Z -> Z * engine;
  sqlite3_step : engine -> option sqlite3_stmt -> Z * engine;
  sqlite3_finalize : engine -> option sqlite3_stmt -> engine;
  sqlite3_reset : engine -> option sqlite3_stmt -> engine;
  sqlite3_clear_bindings : engine -> option sqlite3_stmt -> engine;
  sqlite3_column_type : engine -> option sqlite3_stmt -> Z -> Z;
  (* [None] is the null pointer the library returns for a NULL column *)
  sqlite3_column_text : engine -> option sqlite3_stmt -> Z -> option string;
  sqlite3_column_int : engine -> option sqlite3_stmt -> Z -> Z;
  sqlite3_column_int64 : engine -> option sqlite3_stmt -> Z -> Z;
  sqlite3_column_double : engine -> option sqlite3_stmt -> Z -> double
}.

(** ** std::getline and std::stoll *)

(** One [std::getline(ss, tmp, delimiter)] on a stream that still has
    characters: [tmp] receives the characters before the first delimiter,
    the delimiter is consumed, the rest stays in the stream. *)
Fixpoint getline (ss : string) (delimiter : ascii) : string * string :=
  match ss with
  | EmptyString => (EmptyString, EmptyString)
  | String c r =>
      if Ascii.eqb c delimiter then (EmptyString, r)
      else let '(tmp, rest) := getline r delimiter in (String c tmp, rest)
  end.

(** [getline] on a stream with characters left always consumes some. *)
Lemma getline_consumes (c : ascii) (r : string) (d : ascii) :
  (String.length (snd (getline (String c r) d)) < String.length (String c r))%nat.
Proof.
  revert c. induction r as [|a r IH]; intro c; simpl.
  - destruct (Ascii.eqb c d); simpl; lia.
  - destruct (Ascii.eqb c d); simpl; [lia|].
    specialize (IH a). simpl in IH.
    destruct (Ascii.eqb a d); simpl in *; [lia|].
    destruct (getline r d); simpl in *. lia.
Qed.

(** [std::stoll(str)] (base 10), through [strtoll]: leading white space is
    skipped, one optional sign is read, then the longest run of decimal
    digits; what follows the digits is ignored.  No digit: the call throws
    [std::invalid_argument]; a value outside of [long long]:
    [std::out_of_range].  The [what()] text is the function name, as in
    libstdc++. *)
Fixpoint skip_space (s : string) : string :=
  match s with
  | String c r => if isspace c then skip_space r else s
  | EmptyString => s
  end.

Definition digit_value (c : ascii) : Z := Z.of_N (N_of_ascii c) - 48.

(** reads the digits in front of [s]: how many there are and their value,
    [acc] being the value read so far. *)
Fixpoint read_digits (s : string) (acc : Z) (count : nat) : Z * nat :=
  match s with
  | String c r =>
      if isdigit c then read_digits r (10 * acc + digit_value c) (S count)
      else (acc, count)
  | EmptyString => (acc, count)
  end.

Definition stoll (str : string) : outcome Z :=
  let s := skip_space str in
  let '(negative, s) :=
    match s with
    | String "-" r => (true, r)
    | String "+" r => (false, r)
    | _ => (false, s)
    end in
  let '(magnitude, count) := read_digits s 0 0 in
  match count with
  | O => Throws (invalid_argument "stoll")
  | S _ =>
      let value := if negative then - magnitude else magnitude in
      if ((value <? INT64_MIN) || (INT64_MAX <? value))%bool
      then Throws (out_of_range "stoll")
      else Returns value
  end.

(** A value together with the equation that names it (used to keep the
    result of [getline] in view of the termination argument). *)
Definition inspect {A : Type} (a : A) : {b : A | a = b} := exist _ a eq_refl.

(** The loop of [get_int64_array]:
    [while (std::getline(ss, tmp, delimiter)) result.push_back(std::stoll(tmp));]
    [getline] fails, and the loop ends, when the stream has no character
    left (or has already hit its end). *)
Equations? getline_loop (delimiter : ascii) (ss : string) (result : list Z)
  : outcome (list Z) by wf (String.length ss) lt :=
  getline_loop delimiter EmptyString result := Returns result;
  getline_loop delimiter (String c r) result
    with inspect (getline (String c r) delimiter) => {
    | exist _ (tmp, rest) Hline with stoll tmp => {
      | Returns v => getline_loop delimiter rest (result ++ [v])%list
      | Throws e => Throws e } }.
Proof.
  pose proof (getline_consumes c r delimiter) as Hlt.
  change (getline (String c r) delimiter = (tmp, rest)) in Hline.
  rewrite Hline in Hlt. exact Hlt.
Qed.

(** The segments the successive [getline] calls of that loop read, were
    none of them to fail to parse. *)
Equations? segments (delimiter : ascii) (ss : string) : list string
  by wf (String.length ss) lt :=
  segments delimiter EmptyString := [];
  segments delimiter (String c r)
    with inspect (getline (String c r) delimiter) => {
    | exist _ (tmp, rest) Hline => tmp :: segments delimiter rest }.
Proof.
  pose proof (getline_consumes c r delimiter) as Hlt.
  change (getline (String c r) delimiter = (tmp, rest)) in Hline.
  rewrite Hline in Hlt. exact Hlt.
Qed.

(** A segment begins with an integer when, after optional white space and
    one optional sign, a decimal digit follows. *)
Definition starts_with_integer (segment : string) : bool :=
  let s := skip_space segment in
  let s := match s with
           | String "-" r => r
           | String "+" r => r
           | _ => s
           end in
  match s with
  | String c _ => isdigit c
  | EmptyString => false
  end.

(** ** The wrapper classes *)

Section Wrapper.
Context {E : NativeEngine}.

(** [class SqliteDatabase]: the native connection handle. *)
Record SqliteDatabase : Type := { db : option sqlite3 }.

(** [DatabaseException(sqlite3 *db)]: the message is the library's last
    error text, or a fixed text when the handle is null. *)
Definition DatabaseException_of (eng : engine) (d : option sqlite3) : exception :=
  DatabaseException
    match d with
    | Some h => sqlite3_errmsg eng h
    | None => "Database isn't open"
    end.

(** [class Query].  [database] is the owning connection, [ss] the text
    accumulated in the string stream; the three [int]s are the bind
    cursor, the column cursor and the cached column count. *)
Record Query : Type := {
  database : SqliteDatabase;
  ss : string;
  stmt : option sqlite3_stmt;
  bind_idx : Z;
  col_idx : Z;
  col_count : Z
}.

Definition Query_new (d : SqliteDatabase) : Query :=
  {| database := d; ss := ""; stmt := None;
     bind_idx := 0; col_idx := 0; col_count := 0 |}.

Definition set_ss (q : Query) (text : string) : Query :=
  {| database := database q; ss := text; stmt := stmt q;
     bind_idx := bind_idx q; col_idx := col_idx q; col_count := col_count q |}.
Definition set_stmt (q : Query) (p : option sqlite3_stmt) : Query :=
  {| database := database q; ss := ss q; stmt := p;
     bind_idx := bind_idx q; col_idx := col_idx q; col_count := col_count q |}.
Definition set_bind_idx (q : Query) (i : Z) : Query :=
  {| database := database q; ss := ss q; stmt := stmt q;
     bind_idx := i; col_idx := col_idx q; col_count := col_count q |}.
Definition set_col_idx (q : Query) (i : Z) : Query :=
  {| database := database q; ss := ss q; stmt := stmt q;
     bind_idx := bind_idx q; col_idx := i; col_count := col_count q |}.
Definition set_col_count (q : Query) (n : Z) : Query :=
  {| database := database q; ss := ss q; stmt := stmt q;
     bind_idx := bind_idx q; col_idx := col_idx q; col_count := n |}.

(** *** Building the text *)

(** [ss << ' '] when the guard holds. *)
Definition separate (buf : string) : string :=
  if wants_separator buf then buf ++ " " else buf.

(** [Query::operator<<(const char *value)]; [None] is the null pointer. *)
Definition append_cstr (value : option string) (q : Query) : Query :=
  match value with
  | None => q
  | Some v => set_ss q (separate (ss q) ++ v)
  end.

(** [Query::operator<<(const std::string &value)]. *)
Definition append_string (value : string) (q : Query) : Query :=
  if empty value then q
  else set_ss q (separate (ss q) ++ value).

(** [template<typename T> Query::operator<<(const T &value)]; [shown] is
    the text [ss << value] writes for the value. *)
Definition append_value (shown : string) (q : Query) : Query :=
  set_ss q ((if negb (empty (ss q)) then ss q ++ " " else ss q) ++ shown).

(** the [for] loop of [add_array(columns)], [todo] iterations from index
    [i] on: [ss << (i ? ",?" : "(?")]. *)
Fixpoint add_array_columns (todo : nat) (i : N) (buf : string) : string :=
  match todo with
  | O => buf
  | S todo' =>
      add_array_columns todo' (N.succ i)
        (buf ++ (if N.eqb i 0 then "(?" else ",?"))
  end.

(** [Query::add_array(size_t columns)]. *)
Definition add_array (columns : nat) (q : Query) : Query :=
  let buf := separate (ss q) in
  let buf :=
    match columns with
    | O => buf ++ "("
    | S _ => add_array_columns columns 0 buf
    end in
  set_ss q (buf ++ ")").

(** the [for] loop of [add_array(columns, rows)], [todo] iterations from
    index [i] on. *)
Fixpoint add_array_rows (columns : nat) (todo : nat) (i : N) (q : Query) : Query :=
  match todo with
  | O => q
  | S todo' =>
      let q := if N.eqb i 0 then q else set_ss q (ss q ++ ",") in
      add_array_rows columns todo' (N.succ i) (add_array columns q)
  end.

(** [Query::add_array(size_t columns, size_t rows)]. *)
Definition add_array2 (columns rows : nat) (q : Query) : Query :=
  add_array_rows columns rows 0 q.

(** *** Preparing, binding, stepping *)

(** The state a member function of [Query] runs in: the library and the
    object. *)
Record QState : Type := { eng : engine; self : Query }.

Definition on_self (f : Query -> Query) : M QState unit :=
  modify (fun s => {| eng := eng s; self := f (self s) |}).
Definition set_eng (e : engine) : M QState unit :=
  modify (fun s => {| eng := e; self := self s |}).

(** [throw DatabaseException(database->db)]. *)
Definition throw_db {A} : M QState A :=
  s <- get ;;
  throw (DatabaseException_of (eng s) (db (database (self s)))).

Definition isNull {A} (p : option A) : bool :=
  match p with None => true | Some _ => false end.

(** [Query::prepare]. *)
Definition prepare : M QState unit :=
  s <- get ;;
  let '(rc, p, e) :=
    sqlite3_prepare_v2 (eng s) (db (database (self s))) (ss (self s)) in
  set_eng e ;;
  on_self (fun q => set_stmt q p) ;;
  if negb (rc =? SQLITE_OK) then throw_db
  else
    s <- get ;;
    on_self (fun q => set_col_count q (sqlite3_column_count (eng s) (stmt q))).

(** the common shape of the binding functions:
    [if (!stmt) prepare(); if (native(stmt, ++bind_idx, ...) != SQLITE_OK) throw ...] *)
Definition bind_with
    (native : engine -> option sqlite3_stmt -> Z -> Z * engine) : M QState unit :=
  s <- get ;;
  (if isNull (stmt (self s)) then prepare else ret tt) ;;
  on_self (fun q => set_bind_idx q (bind_idx q + 1)) ;;
  s <- get ;;
  let '(rc, e) := native (eng s) (stmt (self s)) (bind_idx (self s)) in
  set_eng e ;;
  if negb (rc =? SQLITE_OK) then throw_db else ret tt.

(** [Query::bind(int32_t)], [bind(int64_t)], [bind()]. *)
Definition bind_int32 (value : Z) : M QState unit :=
  bind_with (fun e p i => sqlite3_bind_int e p i value).
Definition bind_int64 (value : Z) : M QState unit :=
  bind_with (fun e p i => sqlite3_bind_int64 e p i value).
Definition bind_null : M QState unit :=
  bind_with (fun e p i => sqlite3_bind_null e p i).

(** [Query::bind(uint32_t)]. *)
Definition bind_uint32 (value : Z) : M QState unit :=
  bind_int64 (to_int64 value).

(** [Query::bind(uint64_t)]; the comparison is made in [uint64_t]. *)
Definition bind_uint64 (value : Z) : M QState unit :=
  if value >? INT64_MAX
  then throw (DatabaseException "Can't bind value. Sqlite doesn't support uint64 type")
  else bind_int64 (to_int64 value).

(** [Query::step]. *)
Definition step : M QState bool :=
  s <- get ;;
  (if isNull (stmt (self s)) then prepare else ret tt) ;;
  on_self (fun q => set_col_idx q 0) ;;
  s <- get ;;
  let '(rc, e) := sqlite3_step (eng s) (stmt (self s)) in
  set_eng e ;;
  if rc =? SQLITE_ROW then ret true
  else if rc =? SQLITE_DONE then ret false
  else throw_db.

(** [Query::reset] and [Query::clear_bindings]. *)
Definition reset : M QState unit :=
  s <- get ;;
  set_eng (sqlite3_finalize (eng s) (stmt (self s))) ;;
  on_self (fun q => Query_new (database q)).

Definition clear_bindings : M QState unit :=
  s <- get ;;
  (if negb (isNull (stmt (self s)))
   then set_eng (sqlite3_clear_bindings
                   (sqlite3_reset (eng s) (stmt (self s))) (stmt (self s)))
   else ret tt) ;;
  on_self (fun q => set_col_idx (set_bind_idx q 0) 0).

(** *** Reading the columns *)

(** [Query::is_null]. *)
Definition is_null : M QState bool :=
  s <- get ;;
  ret (sqlite3_column_type (eng s) (stmt (self s)) (col_idx (self s)) =? SQLITE_NULL).

(** [if (col_idx >= col_count) throw DatabaseException("Column is out of range");] *)
Definition check_column : M QState unit :=
  s <- get ;;
  if col_idx (self s) >=? col_count (self s)
  then throw (DatabaseException "Column is out of range")
  else ret tt.

(** [native(stmt, col_idx++)] *)
Definition read_column {A} (native : engine -> option sqlite3_stmt -> Z -> A)
  : M QState A :=
  s <- get ;;
  on_self (fun q => set_col_idx q (col_idx q + 1)) ;;
  ret (native (eng s) (stmt (self s)) (col_idx (self s))).

Definition skip : M QState unit :=
  check_column ;;
  on_self (fun q => set_col_idx q (col_idx q + 1)).

Definition get_string : M QState string :=
  check_column ;;
  str <- read_column sqlite3_column_text ;;
  ret (match str with Some text => text | None => "" end).

Definition get_int32 : M QState Z :=
  check_column ;; read_column sqlite3_column_int.

Definition get_int64 : M QState Z :=
  check_column ;; read_column sqlite3_column_int64.

Definition get_uint32 : M QState Z :=
  value <- get_int64 ;;
  if ((value <? 0) || (value >? UINT32_MAX))%bool
  then throw (DatabaseException "uint32 value is out of range")
  else ret (to_uint32 value).

Definition get_uint64 : M QState Z :=
  value <- get_int64 ;;
  if value <? 0
  then throw (DatabaseException "uint64 value is out of range")
  else ret (to_uint64 value).

Definition get_double : M QState double :=
  check_column ;; read_column sqlite3_column_double.

Definition get_int64_array (delimiter : ascii) : M QState (list Z) :=
  text <- get_string ;;
  match getline_loop delimiter text [] with
  | Returns result => ret result
  | Throws e => throw e
  end.

End Wrapper.

Section Connection.
Context {E : NativeEngine}.

(** What lies outside the wrapper's objects: the library, and two traces
    kept for the specification, the SQL texts passed to
    [SqliteDatabase::exec] (in call order) and the lines written to
    [std::cerr]. *)
Record Env : Type := {
  native : engine;
  issued : list string;
  cerr : list string
}.

Definition set_native (e : engine) : M Env unit :=
  modify (fun w => {| native := e; issued := issued w; cerr := cerr w |}).
Definition note_issued (sql : string) : M Env unit :=
  modify (fun w => {| native := native w;
                      issued := (issued w ++ [sql])%list; cerr := cerr w |}).
Definition write_cerr (line : string) : M Env unit :=
  modify (fun w => {| native := native w; issued := issued w;
                      cerr := (cerr w ++ [line])%list |}).

(** [SqliteDatabase::exec]. *)
Definition exec (d : SqliteDatabase) (sql : string) : M Env unit :=
  note_issued sql ;;
  w <- get ;;
  let '(rc, p, e) := sqlite3_prepare_v2 (native w) (db d) sql in
  set_native e ;;
  if negb (rc =? SQLITE_OK)
  then throw (DatabaseException_of e (db d))
  else
    let '(res, e) := sqlite3_step e p in
    let e := sqlite3_finalize e p in
    set_native e ;;
    if (negb (res =? SQLITE_ROW) && negb (res =? SQLITE_DONE))%bool
    then throw (DatabaseException_of e (db d))
    else ret tt.

End Connection.

Module Transaction.
Section Scope.
Context {E : NativeEngine}.

(** [class Transaction]: [database] is the shared pointer ([None] once it
    has been reset), [exception_count] the value of
    [std::uncaught_exceptions()] at construction. *)
Record t : Type := {
  database : option SqliteDatabase;
  exception_count : Z
}.

Record State : Type := { env : Env; this : t }.

Definition in_env {A} (m : M Env A) : M State A :=
  zoom env (fun w s => {| env := w; this := this s |}) m.

(** [database.reset()]. *)
Definition reset_database : M State unit :=
  modify (fun s => {| env := env s;
                      this := {| database := None;
                                 exception_count := exception_count (this s) |} |}).

(** The constructor, called by [SqliteDatabase::begin_transaction];
    [uncaught_exceptions] is the value [std::uncaught_exceptions()] has at
    the call.  When [BEGIN] throws no object exists. *)
Definition create (d : SqliteDatabase) (uncaught_exceptions : Z) : M Env t :=
  exec d "BEGIN" ;;
  ret {| database := Some d; exception_count := uncaught_exceptions |}.

(** [Transaction::~Transaction]. *)
Definition destroy (uncaught_exceptions : Z) : M State unit :=
  s <- get ;;
  match database (this s) with
  | None => ret tt
  | Some d =>
      if exception_count (this s) =? uncaught_exceptions
      then in_env (exec d "COMMIT")
      else
        try_catch (in_env (exec d "ROLLBACK"))
          (fun e => in_env (write_cerr ("Transaction rollback error: " ++ what e)))
  end.

(** [Transaction::commit] and [Transaction::rollback]. *)
Definition commit : M State unit :=
  s <- get ;;
  match database (this s) with
  | None => throw (DatabaseException "Can't commit on inactive transaction")
  | Some d => in_env (exec d "COMMIT") ;; reset_database
  end.

Definition rollback : M State unit :=
  s <- get ;;
  match database (this s) with
  | None => throw (DatabaseException "Can't rollback on inactive transaction")
  | Some d => in_env (exec d "ROLLBACK") ;; reset_database
  end.


(** The life of a scope after its construction: member calls made by the
    owner (who may catch what they throw), then the destructor. *)
Inductive call : Type := Commit | Rollback.

Definition run_call (c : call) : M State unit :=
  match c with Commit => commit | Rollback => rollback end.

Fixpoint run_calls (cs : list call) (s : State) : State :=
  match cs with
  | [] => s
  | c :: cs' => run_calls cs' (snd (run_call c s))
  end.

Definition lifetime (cs : list call) (uncaught_at_exit : Z) (s : State) : State :=
  snd (destroy uncaught_at_exit (run_calls cs s)).

End Scope.
End Transaction.

(** ** A small engine to run the wrapper on

    [echo_engine] is an instance of the native interface in which the result
    row of a statement is the list of the values bound to its placeholders
    (as for [SELECT ?, ?, ...]), and the result codes of the coming
    [sqlite3_step] calls are read from a script.  Placeholder positions are
    checked the way the library does ([SQLITE_RANGE] outside of
    [1..placeholders]). *)
Module Echo.

Inductive value : Type := VNull | VInt (z : Z) | VText (s : string).

Record statement : Type := {
  placeholders : nat;
  bound : list value;
  row : list value
}.

Record state : Type := {
  statements : list statement;
  script : list Z;
  last_error : string
}.

Definition lookup (e : state) (p : option nat) : option statement :=
  match p with
  | Some h => nth_error (statements e) h
  | None => None
  end.

Fixpoint replace {A : Type} (l : list A) (n : nat) (x : A) : list A :=
  match l, n with
  | [], _ => []
  | _ :: r, O => x :: r
  | a :: r, S n' => a :: replace r n' x
  end.

Definition with_error (e : state) (msg : string) : state :=
  {| statements := statements e; script := script e; last_error := msg |}.

Definition with_statement (e : state) (h : nat) (st : statement) : state :=
  {| statements := replace (statements e) h st;
     script := script e; last_error := last_error e |}.

Fixpoint count_placeholders (sql : string) : nat :=
  match sql with
  | EmptyString => O
  | String c r =>
      if Ascii.eqb c "?" then S (count_placeholders r) else count_placeholders r
  end.

Definition errstr (rc : Z) : string :=
  if rc =? SQLITE_BUSY then "database is locked"
  else if rc =? SQLITE_RANGE then "column index out of range"
  else if rc =? SQLITE_MISUSE then "bad parameter or other API misuse"
  else "SQL logic error".

Definition prepare_v2 (e : state) (d : option unit) (sql : string)
  : Z * option nat * state :=
  match d with
  | None => (SQLITE_MISUSE, None, e)
  | Some _ =>
      let n := count_placeholders sql in
      (SQLITE_OK, Some (List.length (statements e)),
       {| statements :=
            (statements e ++
               [{| placeholders := n; bound := repeat VNull n; row := [] |}])%list;
          script := script e; last_error := last_error e |})
  end.

Definition bind_value (v : value) (e : state) (p : option nat) (i : Z) : Z * state :=
  match p, lookup e p with
  | Some h, Some st =>
      if ((1 <=? i) && (i <=? Z.of_nat (placeholders st)))%bool
      then (SQLITE_OK,
            with_statement e h
              {| placeholders := placeholders st;
                 bound := replace (bound st) (Z.to_nat (i - 1)) v;
                 row := row st |})
      else (SQLITE_RANGE, with_error e (errstr SQLITE_RANGE))
  | _, _ => (SQLITE_MISUSE, with_error e (errstr SQLITE_MISUSE))
  end.

Definition step (e : state) (p : option nat) : Z * state :=
  match p, lookup e p with
  | Some h, Some st =>
      match script e with
      | [] => (SQLITE_DONE, e)
      | rc :: rest =>
          let e := {| statements := statements e; script := rest;
                      last_error := last_error e |} in
          if rc =? SQLITE_ROW
          then (rc, with_statement e h
                      {| placeholders := placeholders st;
                         bound := bound st; row := bound st |})
          else if rc =? SQLITE_DONE then (rc, e)
          else (rc, with_error e (errstr rc))
      end
  | _, _ => (SQLITE_MISUSE, with_error e (errstr SQLITE_MISUSE))
  end.

Definition reset_rows (e : state) (p : option nat) : state :=
  match p, lookup e p with
  | Some h, Some st =>
      with_statement e h
        {| placeholders := placeholders st; bound := bound st; row := [] |}
  | _, _ => e
  end.

Definition clear (e : state) (p : option nat) : state :=
  match p, lookup e p with
  | Some h, Some st =>
      with_statement e h
        {| placeholders := placeholders st;
           bound := repeat VNull (placeholders st); row := row st |}
  | _, _ => e
  end.

Definition column (e : state) (p : option nat) (i : Z) : value :=
  match lookup e p with
  | Some st => if i <? 0 then VNull else nth (Z.to_nat i) (row st) VNull
  | None => VNull
  end.

Definition column_count (e : state) (p : option nat) : Z :=
  match lookup e p with
  | Some st => Z.of_nat (placeholders st)
  | None => 0
  end.

Definition type_of (v : value) : Z :=
  match v with
  | VNull => SQLITE_NULL
  | VInt _ => SQLITE_INTEGER
  | VText _ => SQLITE_TEXT
  end.

Definition text_of (v : value) : option string :=
  match v with
  | VNull => None
  | VInt z => Some (NilZero.string_of_int (Z.to_int z))
  | VText s => Some s
  end.

Definition int64_of (v : value) : Z :=
  match v with
  | VNull => 0
  | VInt z => z
  | VText s => match stoll s with Returns z => z | Throws _ => 0 end
  end.

End Echo.

#[export] Instance echo_engine : NativeEngine := {|
  engine := Echo.state;
  sqlite3 := unit;
  sqlite3_stmt := nat;
  double := Z;
  sqlite3_errmsg := fun e _ => Echo.last_error e;
  sqlite3_prepare_v2 := Echo.prepare_v2;
  sqlite3_column_count := Echo.column_count;
  sqlite3_bind_int := fun e p i v => Echo.bind_value (Echo.VInt v) e p i;
  sqlite3_bind_int64 := fun e p i v => Echo.bind_value (Echo.VInt v) e p i;
  sqlite3_bind_null := Echo.bind_value Echo.VNull;
  sqlite3_step := Echo.step;
  sqlite3_finalize := fun e _ => e;
  sqlite3_reset := Echo.reset_rows;
  sqlite3_clear_bindings := Echo.clear;
  sqlite3_column_type := fun e p i => Echo.type_of (Echo.column e p i);
  sqlite3_column_text := fun e p i => Echo.text_of (Echo.column e p i);
  sqlite3_column_int := fun e p i => to_int32 (Echo.int64_of (Echo.column e p i));
  sqlite3_column_int64 := fun e p i => Echo.int64_of (Echo.column e p i);
  sqlite3_column_double := fun e p i => Echo.int64_of (Echo.column e p i)
|}.

(** Concrete states used in the examples: an open connection, a fresh
    library state with a given step script, and a [Query] positioned on a
    one-column row. *)
Definition echo_db : SqliteDatabase (E := echo_engine) := {| db := Some tt |}.

Definition echo_fresh (script : list Z) : Echo.state :=
  {| Echo.statements := []; Echo.script := script; Echo.last_error := "not an error" |}.

Definition echo_on_row (cell : Echo.value) (at_column : Z) : QState (E := echo_engine) :=
  {| eng := {| Echo.statements :=
                 [{| Echo.placeholders := 1; Echo.bound := [cell]; Echo.row := [cell] |}];
               Echo.script := []; Echo.last_error := "not an error" |};
     self := {| database := echo_db; ss := "SELECT ?"; stmt := Some 0%nat;
                bind_idx := 1; col_idx := at_column; col_count := 1 |} |}.

Definition echo_query (text : string) (script : list Z) : QState (E := echo_engine) :=
  {| eng := echo_fresh script; self := set_ss (Query_new echo_db) text |}.

Definition echo_env (script : list Z) : Env (E := echo_engine) :=
  {| native := echo_fresh script; issued := []; cerr := [] |}.

Definition echo_scope (script : list Z) : Transaction.State (E := echo_engine) :=
  {| Transaction.env := echo_env script;
     Transaction.this := {| Transaction.database := Some echo_db;
                            Transaction.exception_count := 0 |} |}.

(** ** Notions used to state the properties *)

Section Notions.
Context {E : NativeEngine}.

(** A sequence of [<<] with text fragments, on a given builder. *)
Definition append_all (fragments : list string) (q : Query) : Query :=
  fold_left (fun q f => append_string f q) fragments q.

(** The fragments with exactly one space between neighbours. *)
Definition spaced (fragments : list string) : string :=
  String.concat " " fragments.

(** The fragments with one space after each fragment that has a successor
    and does not itself end in white space. *)
Fixpoint joined (fragments : list string) : string :=
  match fragments with
  | [] => ""
  | f :: rest =>
      match rest with
      | [] => f
      | _ :: _ => (if isspace (back f) then f else f ++ " ") ++ joined rest
      end
  end.

(** [n] copies of a text, one after the other. *)
Fixpoint replicate (n : nat) (text : string) : string :=
  match n with
  | O => ""
  | S n' => text ++ replicate n' text
  end.

(** One parenthesized group of [columns] placeholders. *)
Definition placeholders_group (columns : nat) : string :=
  "(" ++ String.concat "," (repeat "?" columns) ++ ")".

(** The state of a [Query] after one column has been consumed. *)
Definition advanced (s : QState) : QState :=
  {| eng := eng s; self := set_col_idx (self s) (col_idx (self s) + 1) |}.

(** The native 64-bit value of the column under the cursor. *)
Definition current_int64 (s : QState) : Z :=
  sqlite3_column_int64 (eng s) (stmt (self s)) (col_idx (self s)).

(** The text [get_string] reads at the cursor. *)
Definition current_text (s : QState) : string :=
  match sqlite3_column_text (eng s) (stmt (self s)) (col_idx (self s)) with
  | Some text => text
  | None => ""
  end.

(** The exception of the bounds check of the reading functions. *)
Definition column_out_of_range : exception :=
  DatabaseException "Column is out of range".

(** A numeric-parse error of [std::stoll], whatever its [what()]. *)
Definition parse_error (e : exception) : Prop :=
  match e with
  | invalid_argument _ | out_of_range _ => True
  | DatabaseException _ => False
  end.


End Notions.

(** ** The text binds and the factories *)

(** [sqlite3_bind_text(stmt, idx, text, nbytes, destructor)]: the text
    pointer may be null, [nbytes] is negative when the library is to measure
    the text itself, and the last argument tells [SQLITE_STATIC] ([true])
    from [SQLITE_TRANSIENT]. *)
Class NativeText (E : NativeEngine) : Type := {
  sqlite3_bind_text :
    engine -> option sqlite3_stmt -> Z -> option string -> Z -> bool -> Z * engine
}.

(** What a factory that starts with [shared_from_this()] ends in: that call
    throws [std::bad_weak_ptr] when no shared pointer owns the connection
    (one made with the public constructor); otherwise the constructor runs
    and returns or throws. *)
Inductive factory_result (A : Type) : Type :=
| bad_weak_ptr
| constructed (r : outcome A).
Arguments bad_weak_ptr {A}.
Arguments constructed {A} r.

Section TextBinds.
Context {E : NativeEngine} {T : NativeText E}.

(** [Query::bind(const char *str, bool constant)]. *)
Definition bind_cstr (str : option string) (constant : bool) : M QState unit :=
  bind_with (fun e p i => sqlite3_bind_text e p i str (-1) constant).

(** [Query::bind(const std::string &str, bool constant)]; [str.size()] is
    passed as an [int]. *)
Definition bind_string (str : string) (constant : bool) : M QState unit :=
  bind_with (fun e p i =>
               sqlite3_bind_text e p i (Some str)
                 (to_int32 (Z.of_nat (String.length str))) constant).

(** [SqliteDatabase::create_query], on a connection owned by a shared
    pointer. *)
Definition create_query (d : SqliteDatabase) : Query := Query_new d.

(** [SqliteDatabase::begin_transaction], at a moment when
    [std::uncaught_exceptions()] has the given value; [owned] tells whether
    a shared pointer owns the connection. *)
Definition begin_transaction (owned : bool) (d : SqliteDatabase)
    (uncaught_exceptions : Z) (w : Env) : factory_result Transaction.t * Env :=
  if owned
  then let '(r, w') := Transaction.create d uncaught_exceptions w in
       (constructed r, w')
  else (bad_weak_ptr, w).

End TextBinds.

#[export] Instance echo_text : NativeText echo_engine := {|
  sqlite3_bind_text := fun e p i text nbytes _ =>
    Echo.bind_value
      match text with
      | None => Echo.VNull
      | Some t =>
          Echo.VText (if nbytes <? 0 then t else substring 0 (Z.to_nat nbytes) t)
      end e p i
|}.

(** ** Further notions used to state the properties *)

Section MoreNotions.
Context {E : NativeEngine}.

(** The number of occurrences of a character in a text. *)
Fixpoint occurrences (c : ascii) (text : string) : nat :=
  match text with
  | EmptyString => O
  | String x r => ((if Ascii.eqb x c then 1 else 0) + occurrences c r)%nat
  end.

(** Whether a text ends with a given character. *)
Definition ends_with (c : ascii) (text : string) : bool :=
  (negb (empty text) && Ascii.eqb (back text) c)%bool.

(** A state with another text in the builder. *)
Definition with_text (s : QState) (text : string) : QState :=
  {| eng := eng s; self := set_ss (self s) text |}.

(** [n] calls of [skip] in a row. *)
Fixpoint skips (n : nat) : M QState unit :=
  match n with
  | O => ret tt
  | S n' => skip ;; skips n'
  end.

(** Parsing a list of segments in order, stopping at the first one that
    [std::stoll] refuses. *)
Fixpoint parse_segments (segs : list string) (result : list Z) : outcome (list Z) :=
  match segs with
  | [] => Returns result
  | seg :: rest =>
      match stoll seg with
      | Returns v => parse_segments rest (result ++ [v])%list
      | Throws e => Throws e
      end
  end.


(** The state after a bind at the next position, the library being [e]. *)
Definition after_bind (s : QState) (e : engine) : QState :=
  {| eng := e; self := set_bind_idx (self s) (bind_idx (self s) + 1) |}.

(** The builder after a read: the column cursor one further when it was
    on a column within range, the builder as it was otherwise. *)
Definition after_read (q : Query) : Query :=
  if col_idx q <? col_count q then set_col_idx q (col_idx q + 1) else q.

(** The state with the column cursor at a given position. *)
Definition at_column (s : QState) (i : Z) : QState :=
  {| eng := eng s; self := set_col_idx (self s) i |}.

End MoreNotions.


(** A prepared one-placeholder statement, nothing bound, no row yet. *)
Definition echo_prepared (script : list Z) : QState (E := echo_engine) :=
  {| eng := {| Echo.statements :=
                 [{| Echo.placeholders := 1; Echo.bound := [Echo.VNull];
                     Echo.row := [] |}];
               Echo.script := script; Echo.last_error := "not an error" |};
     self := {| database := echo_db; ss := "SELECT ?"; stmt := Some 0%nat;
                bind_idx := 0; col_idx := 0; col_count := 1 |} |}.


(** * Properties *)

(** ** Strings *)

Lemma append_empty_r (s : string) : s ++ "" = s.
Proof. induction s as [|c s IH]; simpl; [reflexivity | now rewrite IH]. Qed.

Lemma append_assoc (a b c : string) : (a ++ b) ++ c = a ++ (b ++ c).
Proof. induction a as [|x a IH]; simpl; [reflexivity | now rewrite IH]. Qed.

Lemma empty_true_iff (s : string) : empty s = true <-> s = "".
Proof. destruct s; simpl; split; congruence. Qed.

Lemma empty_false_iff (s : string) : empty s = false <-> s <> "".
Proof. destruct s; simpl; split; congruence. Qed.

Lemma empty_append (a b : string) : empty (a ++ b) = (empty a && empty b)%bool.
Proof. destruct a; reflexivity. Qed.

Lemma back_append (a b : string) : b <> "" -> back (a ++ b) = back b.
Proof.
  intro Hb. induction a as [|x a IH]; simpl; [reflexivity|].
  rewrite IH. destruct (a ++ b) eqn:Hab; [|reflexivity].
  destruct a; simpl in Hab; [contradiction | discriminate].
Qed.

Lemma wants_separator_iff (buf : string) :
  wants_separator buf = true <-> buf <> "" /\ isspace (back buf) = false.
Proof.
  unfold wants_separator. rewrite andb_true_iff, !negb_true_iff, empty_false_iff.
  reflexivity.
Qed.

Lemma wants_separator_append (a b : string) :
  b <> "" -> wants_separator (a ++ b) = negb (isspace (back b)).
Proof.
  intro Hb. unfold wants_separator.
  rewrite empty_append, back_append by assumption.
  apply empty_false_iff in Hb. rewrite Hb, andb_false_r. reflexivity.
Qed.

Section TextProperties.
Context {E : NativeEngine}.

Lemma ss_set_ss (q : Query) (text : string) : ss (set_ss q text) = text.
Proof. reflexivity. Qed.

Lemma set_ss_same (q : Query) : set_ss q (ss q) = q.
Proof. destruct q; reflexivity. Qed.

(** The two text overloads agree on every fragment that is not empty. *)
Lemma append_cstr_string (f : string) (q : Query) :
  f <> "" -> append_cstr (Some f) q = append_string f q.
Proof.
  intro Hf. unfold append_cstr, append_string.
  apply empty_false_iff in Hf. now rewrite Hf.
Qed.

Lemma ss_append_string (f : string) (q : Query) :
  f <> "" -> ss (append_string f q) = separate (ss q) ++ f.
Proof.
  intro Hf. unfold append_string. apply empty_false_iff in Hf. now rewrite Hf.
Qed.

(** What a run of appends leaves in the buffer, from any buffer. *)
Lemma ss_append_all (fs : list string) :
  Forall (fun f => f <> "") fs ->
  forall q, ss (append_all fs q) =
            match fs with
            | [] => ss q
            | _ :: _ => separate (ss q) ++ joined fs
            end.
Proof.
  induction 1 as [|f rest Hf Hrest IH]; intro q; [reflexivity|].
  change (append_all (f :: rest) q) with (append_all rest (append_string f q)).
  rewrite IH, ss_append_string by assumption.
  destruct rest as [|g rest']; [reflexivity|].
  unfold separate at 1. rewrite wants_separator_append by assumption.
  change (joined (f :: g :: rest'))
    with ((if isspace (back f) then f else f ++ " ") ++ joined (g :: rest')).
  destruct (isspace (back f)); simpl negb; cbv iota;
    now rewrite !append_assoc.
Qed.

Lemma joined_spaced (fs : list string) :
  Forall (fun f => isspace (back f) = false) fs -> joined fs = spaced fs.
Proof.
  induction 1 as [|f rest Hf Hrest IH]; [reflexivity|].
  destruct rest as [|g rest']; [reflexivity|].
  change (joined (f :: g :: rest'))
    with ((if isspace (back f) then f else f ++ " ") ++ joined (g :: rest')).
  change (spaced (f :: g :: rest')) with (f ++ " " ++ spaced (g :: rest')).
  rewrite Hf, IH, append_assoc. reflexivity.
Qed.

(** The template overload separates whenever the buffer is not empty,
    white space at its end or not. *)
Lemma ss_append_value (shown : string) (q : Query) :
  ss q <> "" -> ss (append_value shown q) = ss q ++ " " ++ shown.
Proof.
  intro Hq. unfold append_value. apply empty_false_iff in Hq.
  rewrite ss_set_ss, Hq. simpl negb. cbv iota. now rewrite append_assoc.
Qed.

(** *** add_array *)

Lemma add_array_columns_from (todo : nat) (i : N) (buf : string) :
  i <> 0%N -> add_array_columns todo i buf = buf ++ replicate todo ",?".
Proof.
  revert i buf. induction todo as [|n IH]; intros i buf Hi; simpl.
  - now rewrite append_empty_r.
  - apply N.eqb_neq in Hi. rewrite Hi, IH by lia. now rewrite append_assoc.
Qed.

Lemma concat_placeholders (n : nat) :
  String.concat "," (repeat "?" (S n)) = "?" ++ replicate n ",?".
Proof.
  induction n as [|n IH]; [reflexivity|].
  change (String.concat "," (repeat "?" (S (S n))))
    with ("?" ++ "," ++ String.concat "," (repeat "?" (S n))).
  rewrite IH. reflexivity.
Qed.

(** [add_array(columns)] appends one group, after a separator when the
    guard asks for one. *)
Lemma ss_add_array (columns : nat) (q : Query) :
  ss (add_array columns q) = separate (ss q) ++ placeholders_group columns.
Proof.
  unfold add_array, placeholders_group. rewrite ss_set_ss.
  destruct columns as [|n]; [now rewrite append_assoc|].
  change (add_array_columns (S n) 0 (separate (ss q)))
    with (add_array_columns n 1 (separate (ss q) ++ "(?")).
  rewrite add_array_columns_from, concat_placeholders by lia.
  now rewrite !append_assoc.
Qed.

Lemma ss_add_array_rows (columns todo : nat) (i : N) (q : Query) :
  i <> 0%N ->
  ss (add_array_rows columns todo i q) =
  ss q ++ replicate todo (", " ++ placeholders_group columns).
Proof.
  revert i q. induction todo as [|n IH]; intros i q Hi;
    cbn [add_array_rows replicate].
  - now rewrite append_empty_r.
  - pose proof Hi as Hi'. apply N.eqb_neq in Hi'. rewrite Hi', IH by lia.
    rewrite ss_add_array, ss_set_ss. unfold separate.
    rewrite wants_separator_append by discriminate.
    simpl negb. cbv iota. now rewrite !append_assoc.
Qed.

Lemma concat_groups (g : string) (n : nat) :
  String.concat ", " (repeat g (S n)) = g ++ replicate n (", " ++ g).
Proof.
  induction n as [|n IH]; [simpl; now rewrite append_empty_r|].
  change (String.concat ", " (repeat g (S (S n))))
    with (g ++ ", " ++ String.concat ", " (repeat g (S n))).
  rewrite IH. cbn [replicate]. now rewrite !append_assoc.
Qed.

End TextProperties.


(** ** The text a builder assembles *)

(** C3, as amended: from an empty buffer [add_array(0)] appends exactly
    "()" and [add_array(3)] exactly "(?,?,?)"; [add_array(2,3)] appends
    "(?,?), (?,?), (?,?)" and, for all counts, [add_array(columns, rows)]
    appends [rows] groups separated by a comma followed by one space: the
    one-argument form, called after the comma has been written, finds a
    buffer that does not end in white space and separates. *)
Theorem add_array_text {E : NativeEngine} (d : SqliteDatabase) :
  ss (add_array 0 (Query_new d)) = "()" /\
  ss (add_array 3 (Query_new d)) = "(?,?,?)" /\
  ss (add_array2 2 3 (Query_new d)) = "(?,?), (?,?), (?,?)" /\
  forall columns rows : nat,
    ss (add_array2 columns rows (Query_new d)) =
    String.concat ", " (repeat (placeholders_group columns) rows).
Proof.
  repeat split; try reflexivity.
  intros columns [|rows]; [reflexivity|].
  unfold add_array2.
  change (add_array_rows columns (S rows) 0 (Query_new d))
    with (add_array_rows columns rows 1 (add_array columns (Query_new d))).
  rewrite ss_add_array_rows, ss_add_array, concat_groups by lia.
  reflexivity.
Qed.

(** C3, as stated, fails on [add_array(2,3)]: the groups are not separated
    by the comma alone. *)
Lemma add_array_rows_not_bare_commas :
  ~ (ss (add_array 0 (Query_new echo_db)) = "()" /\
     ss (add_array 3 (Query_new echo_db)) = "(?,?,?)" /\
     ss (add_array2 2 3 (Query_new echo_db)) = "(?,?),(?,?),(?,?)").
Proof. intros [_ [_ H]]. vm_compute in H. discriminate H. Qed.

(** C4, where the code departs from it: the [const char *] overload tests
    the pointer only, so an empty C string appended to a buffer that does
    not end in white space still writes the separator. *)
Theorem append_empty_cstr_writes_separator :
  ss (append_cstr (Some "") (set_ss (Query_new echo_db) "SELECT")) = "SELECT ".
Proof. reflexivity. Qed.

(** The fragments C4 is right about: the null pointer and the empty
    [std::string] leave the builder as it was, and so does the empty C
    string when the guard asks for no separator. *)
Lemma append_nothing {E : NativeEngine} (q : Query) :
  append_cstr None q = q /\
  append_string "" q = q /\
  (wants_separator (ss q) = false -> append_cstr (Some "") q = q).
Proof.
  repeat split; try reflexivity.
  intro Hsep. unfold append_cstr, separate. rewrite Hsep, append_empty_r.
  apply set_ss_same.
Qed.

(** C5, as amended: before a non-empty fragment one space is written exactly
    when the buffer is not empty and does not end in white space (both text
    overloads); hence in the assembled text a fragment is followed by one
    separating space when it does not end in white space and by none when
    it does, and the fragments are separated by exactly one space each when
    none of them ends in white space. *)
Theorem fragments_separated {E : NativeEngine} (d : SqliteDatabase)
    (fragments : list string) (Hne : Forall (fun f => f <> "") fragments) :
  (forall q f, f <> "" ->
     append_cstr (Some f) q = append_string f q /\
     ss (append_string f q) =
       (if wants_separator (ss q) then ss q ++ " " else ss q) ++ f /\
     (wants_separator (ss q) = true <->
        ss q <> "" /\ isspace (back (ss q)) = false)) /\
  ss (append_all fragments (Query_new d)) = joined fragments /\
  (Forall (fun f => isspace (back f) = false) fragments ->
   ss (append_all fragments (Query_new d)) = spaced fragments).
Proof.
  assert (Hall : ss (append_all fragments (Query_new d)) = joined fragments).
  { rewrite ss_append_all by assumption. destruct fragments; reflexivity. }
  split; [|split].
  - intros q f Hf. split; [now apply append_cstr_string|].
    split; [now apply ss_append_string | apply wants_separator_iff].
  - exact Hall.
  - intro Hends. rewrite Hall. now apply joined_spaced.
Qed.

Lemma fragments_separated_witness :
  ss (append_all ["SELECT a "; "FROM t"; "WHERE a = 1"] (Query_new echo_db))
  = "SELECT a FROM t WHERE a = 1".
Proof.
  refine (proj1 (proj2 (fragments_separated echo_db
                          ["SELECT a "; "FROM t"; "WHERE a = 1"] _))).
  repeat constructor; discriminate.
Defined.

(** C5, as stated, fails whichever way the one space is counted: after a
    fragment that ends in white space no separator is written, so the text
    is not the fragments with one space put between them; and before a
    fragment that begins with white space the separator is still written,
    so two spaces stand between the words. *)
Lemma fragments_not_always_one_space :
  ~ (forall fragments : list string,
       Forall (fun f => f <> "") fragments ->
       ss (append_all fragments (Query_new echo_db)) = spaced fragments) /\
  ss (append_all ["a "; "b"] (Query_new echo_db)) = "a b" /\
  ss (append_all ["a"; " b"] (Query_new echo_db)) = "a  b".
Proof.
  split; [|split; reflexivity].
  intro H. specialize (H ["a "; "b"]).
  assert (Hne : Forall (fun f : string => f <> "") ["a "; "b"])
    by (repeat constructor; discriminate).
  specialize (H Hne). vm_compute in H. discriminate H.
Qed.

(** ** Reading the columns *)

Section ReadingProperties.
Context {E : NativeEngine}.

Lemma check_column_past (s : QState) :
  col_idx (self s) >= col_count (self s) ->
  check_column s = (Throws column_out_of_range, s).
Proof.
  intro H. unfold check_column, bind, get.
  destruct (Z.geb_spec (col_idx (self s)) (col_count (self s))); [reflexivity | lia].
Qed.

Lemma check_column_within (s : QState) :
  col_idx (self s) < col_count (self s) ->
  check_column s = (Returns tt, s).
Proof.
  intro H. unfold check_column, bind, get.
  destruct (Z.geb_spec (col_idx (self s)) (col_count (self s))); [lia | reflexivity].
Qed.

(** A guarded read either stops at the check or reads and moves on. *)
Lemma guarded_read {A : Type}
    (native : engine -> option sqlite3_stmt -> Z -> A) (s : QState) :
  bind check_column (fun _ => read_column native) s =
  if col_idx (self s) >=? col_count (self s)
  then (Throws column_out_of_range, s)
  else (Returns (native (eng s) (stmt (self s)) (col_idx (self s))), advanced s).
Proof.
  unfold bind at 1.
  destruct (Z.geb_spec (col_idx (self s)) (col_count (self s))) as [Hge|Hlt].
  - rewrite check_column_past by lia. reflexivity.
  - rewrite check_column_within by lia. reflexivity.
Qed.

Lemma get_int64_spec (s : QState) :
  get_int64 s =
  if col_idx (self s) >=? col_count (self s)
  then (Throws column_out_of_range, s)
  else (Returns (current_int64 s), advanced s).
Proof. apply guarded_read. Qed.

Lemma get_string_spec (s : QState) :
  get_string s =
  if col_idx (self s) >=? col_count (self s)
  then (Throws column_out_of_range, s)
  else (Returns (current_text s), advanced s).
Proof.
  unfold get_string, bind at 1.
  destruct (Z.geb_spec (col_idx (self s)) (col_count (self s))) as [Hge|Hlt].
  - rewrite check_column_past by lia. reflexivity.
  - rewrite check_column_within by lia. reflexivity.
Qed.

End ReadingProperties.

(** C6: with the column cursor at or past the cached column count, each of
    the advancing reads ([skip], [get_string], [get_int32], [get_uint32],
    [get_int64], [get_uint64], [get_double], [get_int64_array]) throws
    [DatabaseException("Column is out of range")] and leaves the object,
    its cursor included, and the library as they were. *)
Theorem exhausted_columns_raise {E : NativeEngine} (s : QState) (delimiter : ascii)
    (Hpast : col_idx (self s) >= col_count (self s)) :
  skip s = (Throws column_out_of_range, s) /\
  get_string s = (Throws column_out_of_range, s) /\
  get_int32 s = (Throws column_out_of_range, s) /\
  get_uint32 s = (Throws column_out_of_range, s) /\
  get_int64 s = (Throws column_out_of_range, s) /\
  get_uint64 s = (Throws column_out_of_range, s) /\
  get_double s = (Throws column_out_of_range, s) /\
  get_int64_array delimiter s = (Throws column_out_of_range, s).
Proof.
  assert (Hgeb : (col_idx (self s) >=? col_count (self s)) = true)
    by (apply Z.geb_le; lia).
  assert (H64 : get_int64 s = (Throws column_out_of_range, s))
    by (rewrite get_int64_spec, Hgeb; reflexivity).
  assert (Hstr : get_string s = (Throws column_out_of_range, s))
    by (rewrite get_string_spec, Hgeb; reflexivity).
  repeat split.
  - unfold skip, bind. now rewrite check_column_past.
  - exact Hstr.
  - unfold get_int32. now rewrite guarded_read, Hgeb.
  - unfold get_uint32, bind. now rewrite H64.
  - exact H64.
  - unfold get_uint64, bind. now rewrite H64.
  - unfold get_double. now rewrite guarded_read, Hgeb.
  - unfold get_int64_array, bind. now rewrite Hstr.
Qed.

Lemma exhausted_columns_raise_witness :
  skip (echo_on_row (Echo.VInt 10) 1)
  = (Throws column_out_of_range, echo_on_row (Echo.VInt 10) 1) /\
  get_int64_array "," (echo_on_row (Echo.VInt 10) 1)
  = (Throws column_out_of_range, echo_on_row (Echo.VInt 10) 1).
Proof.
  assert (Hpast : col_idx (self (echo_on_row (Echo.VInt 10) 1))
                  >= col_count (self (echo_on_row (Echo.VInt 10) 1)))
    by (simpl; lia).
  pose proof (exhausted_columns_raise (echo_on_row (Echo.VInt 10) 1) "," Hpast)
    as [Hskip [_ [_ [_ [_ [_ [_ Harray]]]]]]].
  split; [exact Hskip | exact Harray].
Defined.

(** C9: [is_null] returns whether the native storage class of the column
    under the cursor is NULL; it always returns, changes nothing (the
    cursor stays), and does not look at the cached column count: with the
    cursor at or past it the native call is still made and its answer
    returned. *)
Theorem is_null_peeks {E : NativeEngine} (s : QState) :
  exists b : bool,
    is_null s = (Returns b, s) /\
    (b = true <->
     sqlite3_column_type (eng s) (stmt (self s)) (col_idx (self s)) = SQLITE_NULL) /\
    forall n : Z,
      is_null {| eng := eng s; self := set_col_count (self s) n |}
      = (Returns b, {| eng := eng s; self := set_col_count (self s) n |}).
Proof.
  exists (sqlite3_column_type (eng s) (stmt (self s)) (col_idx (self s)) =? SQLITE_NULL).
  split; [reflexivity|]. split; [apply Z.eqb_eq | reflexivity].
Qed.

(** C10: [get_uint32] and [get_uint64] go through [get_int64] first; on a
    column within range the cursor has moved on whatever the value is, so
    when the value is refused ("uint32 value is out of range" for a
    negative value or one above the unsigned 32-bit maximum, "uint64 value
    is out of range" for a negative one) the exception leaves the cursor one
    past the column. *)
Theorem unsigned_reads_advance_first {E : NativeEngine} (s : QState)
    (Hcol : col_idx (self s) < col_count (self s)) :
  get_uint32 s =
    ((if ((current_int64 s <? 0) || (current_int64 s >? UINT32_MAX))%bool
      then Throws (DatabaseException "uint32 value is out of range")
      else Returns (to_uint32 (current_int64 s))),
     advanced s) /\
  get_uint64 s =
    ((if current_int64 s <? 0
      then Throws (DatabaseException "uint64 value is out of range")
      else Returns (to_uint64 (current_int64 s))),
     advanced s) /\
  col_idx (self (advanced s)) = col_idx (self s) + 1.
Proof.
  assert (Hgeb : (col_idx (self s) >=? col_count (self s)) = false)
    by (destruct (Z.geb_spec (col_idx (self s)) (col_count (self s))); [lia | reflexivity]).
  assert (H64 : get_int64 s = (Returns (current_int64 s), advanced s))
    by (rewrite get_int64_spec, Hgeb; reflexivity).
  repeat split.
  - unfold get_uint32, bind. rewrite H64.
    destruct ((current_int64 s <? 0) || (current_int64 s >? UINT32_MAX))%bool;
      reflexivity.
  - unfold get_uint64, bind. rewrite H64.
    destruct (current_int64 s <? 0); reflexivity.
Qed.

Lemma unsigned_reads_advance_first_witness :
  get_uint32 (echo_on_row (Echo.VInt (-1)) 0)
  = (Throws (DatabaseException "uint32 value is out of range"),
     advanced (echo_on_row (Echo.VInt (-1)) 0)) /\
  get_uint64 (echo_on_row (Echo.VInt (-1)) 0)
  = (Throws (DatabaseException "uint64 value is out of range"),
     advanced (echo_on_row (Echo.VInt (-1)) 0)).
Proof.
  assert (Hcol : col_idx (self (echo_on_row (Echo.VInt (-1)) 0))
                 < col_count (self (echo_on_row (Echo.VInt (-1)) 0)))
    by (simpl; lia).
  pose proof (unsigned_reads_advance_first (echo_on_row (Echo.VInt (-1)) 0) Hcol)
    as [H32 [H64 _]].
  split; [exact H32 | exact H64].
Defined.

(** ** The delimited integer array *)

(** [std::stoll] throws nothing but its two parse errors. *)
Lemma stoll_throws (str : string) (e : exception) :
  stoll str = Throws e -> parse_error e.
Proof.
  unfold stoll, parse_error.
  destruct (match skip_space str with
            | String "-" r => (true, r)
            | String "+" r => (false, r)
            | _ => (false, skip_space str)
            end) as [negative s].
  destruct (read_digits s 0 0) as [magnitude [|count]].
  - intro H. inversion H. exact I.
  - destruct ((_ <? _) || (_ <? _))%bool; intro H; inversion H. exact I.
Qed.

Lemma read_digits_none (s : string) (acc : Z) (count : nat) :
  match s with String c _ => isdigit c | EmptyString => false end = false ->
  read_digits s acc count = (acc, count).
Proof. destruct s as [|c r]; simpl; [reflexivity|]. now intros ->. Qed.

(** A segment that does not begin with an integer is refused. *)
Lemma stoll_no_integer (segment : string) :
  starts_with_integer segment = false ->
  stoll segment = Throws (invalid_argument "stoll").
Proof.
  unfold starts_with_integer, stoll.
  destruct (skip_space segment) as [|c r]; [reflexivity|].
  destruct (Ascii.eqb_spec c "-") as [->|Hminus].
  { intro H. now rewrite (read_digits_none r 0 0 H). }
  destruct (Ascii.eqb_spec c "+") as [->|Hplus].
  { intro H. now rewrite (read_digits_none r 0 0 H). }
  intro H.
  assert (Hshape :
    match c with
    | "-"%char => (true, r)
    | "+"%char => (false, r)
    | _ => (false, String c r)
    end = (false, String c r)).
  { destruct c as [[] [] [] [] [] [] [] []]; try reflexivity; congruence. }
  assert (Hrest :
    match c with
    | "-"%char => r
    | "+"%char => r
    | _ => String c r
    end = String c r).
  { destruct c as [[] [] [] [] [] [] [] []]; try reflexivity; congruence. }
  rewrite Hshape. rewrite Hrest in H.
  now rewrite (read_digits_none (String c r) 0 0 H).
Qed.

(** The loop and the list of segments, one [getline] at a time. *)
Lemma getline_loop_step (d c : ascii) (r : string) (result : list Z) :
  getline_loop d (String c r) result =
  match stoll (fst (getline (String c r) d)) with
  | Returns v => getline_loop d (snd (getline (String c r) d)) (result ++ [v])
  | Throws e => Throws e
  end.
Proof.
  rewrite getline_loop_equation_2.
  assert (Hany : forall x : {b : string * string | getline (String c r) d = b},
             getline_loop_unfold_clause_2 d c r x result =
             match stoll (fst (proj1_sig x)) with
             | Returns v => getline_loop d (snd (proj1_sig x)) (result ++ [v])
             | Throws e => Throws e
             end).
  { intros [[tmp rest] Hline]. cbn [proj1_sig fst snd].
    rewrite getline_loop_clause_2_equation_1.
    destruct (stoll tmp) as [v|e].
    - apply getline_loop_clause_2_clause_1_equation_1.
    - apply getline_loop_clause_2_clause_1_equation_2. }
  apply Hany.
Qed.

Lemma segments_step (d c : ascii) (r : string) :
  segments d (String c r) =
  fst (getline (String c r) d) :: segments d (snd (getline (String c r) d)).
Proof.
  rewrite segments_equation_2.
  assert (Hany : forall x : {b : string * string | getline (String c r) d = b},
             segments_unfold_clause_2 d c r x =
             fst (proj1_sig x) :: segments d (snd (proj1_sig x))).
  { intros [[tmp rest] Hline]. cbn [proj1_sig fst snd].
    apply segments_clause_2_equation_1. }
  apply Hany.
Qed.

(** The loop cannot get past a segment it cannot parse. *)
Lemma getline_loop_bad_segment (d : ascii) (n : nat) :
  forall (text : string) (result : list Z) (segment : string),
    (String.length text <= n)%nat ->
    In segment (segments d text) ->
    starts_with_integer segment = false ->
    exists e, getline_loop d text result = Throws e /\ parse_error e.
Proof.
  induction n as [|n IH]; intros text result segment Hlen Hin Hbad.
  - destruct text; [|simpl in Hlen; lia].
    rewrite segments_equation_1 in Hin. contradiction.
  - destruct text as [|c r].
    { rewrite segments_equation_1 in Hin. contradiction. }
    rewrite segments_step in Hin. rewrite getline_loop_step.
    pose proof (getline_consumes c r d) as Hshort.
    destruct Hin as [Hhere|Hlater].
    + rewrite Hhere, (stoll_no_integer _ Hbad).
      eexists; split; [reflexivity | exact I].
    + destruct (stoll (fst (getline (String c r) d))) as [v|e] eqn:Hparse.
      * apply (IH _ _ segment); [simpl in *; lia | assumption | assumption].
      * exists e. split; [reflexivity | exact (stoll_throws _ _ Hparse)].
Qed.

(** C2, as amended: the empty segment is not skipped; for every column text
    with a segment (as the successive [getline] calls read them, the empty
    ones between two delimiters included) that does not begin with an
    integer, i.e. with a decimal digit after optional white space and an
    optional sign, [get_int64_array] throws a numeric-parse error of
    [std::stoll], the column cursor having moved past the column.  The text
    "1,2,,3" has such a segment, the empty one. *)
Theorem get_int64_array_bad_segment {E : NativeEngine}
    (s : QState) (delimiter : ascii) (segment : string)
    (Hcol : col_idx (self s) < col_count (self s))
    (Hin : In segment (segments delimiter (current_text s)))
    (Hbad : starts_with_integer segment = false) :
  exists e, get_int64_array delimiter s = (Throws e, advanced s) /\ parse_error e.
Proof.
  destruct (getline_loop_bad_segment delimiter _ (current_text s) [] segment
              (le_n _) Hin Hbad) as [e [Hloop Hparse]].
  exists e. split; [|exact Hparse].
  unfold get_int64_array, bind. rewrite get_string_spec.
  destruct (Z.geb_spec (col_idx (self s)) (col_count (self s))); [lia|].
  rewrite Hloop. reflexivity.
Qed.

Lemma get_int64_array_bad_segment_witness :
  exists e,
    get_int64_array "," (echo_on_row (Echo.VText "1,2,,3") 0)
    = (Throws e, advanced (echo_on_row (Echo.VText "1,2,,3") 0)) /\
    parse_error e.
Proof.
  apply (get_int64_array_bad_segment
           (echo_on_row (Echo.VText "1,2,,3") 0) "," "").
  - simpl. lia.
  - vm_compute. right. right. left. reflexivity.
  - reflexivity.
Defined.

(** C2, as stated, fails on its own example: on the text "1,2,,3" the call
    throws [std::invalid_argument] at the empty segment instead of
    returning [1, 2, 3]. *)
Lemma get_int64_array_keeps_empty_segment :
  fst (get_int64_array "," (echo_on_row (Echo.VText "1,2,,3") 0))
  = Throws (invalid_argument "stoll") /\
  fst (get_int64_array "," (echo_on_row (Echo.VText "1,2,,3") 0))
  <> Returns [1; 2; 3].
Proof. split; [reflexivity | discriminate]. Qed.

(** Without empty segments the values come out in order; characters after
    the digits of a segment, white space before them and a delimiter at the
    end of the text are passed over. *)
Example get_int64_array_values :
  fst (get_int64_array "," (echo_on_row (Echo.VText "1,2,3") 0))
  = Returns [1; 2; 3] /\
  fst (get_int64_array "," (echo_on_row (Echo.VText "1,2x, -3,+4,") 0))
  = Returns [1; 2; -3; 4] /\
  fst (get_int64_array "," (echo_on_row (Echo.VText "9223372036854775808") 0))
  = Throws (out_of_range "stoll").
Proof. repeat split. Qed.

(** ** Binding unsigned 64-bit values *)

Lemma to_int64_small (v : Z) : 0 <= v <= INT64_MAX -> to_int64 v = v.
Proof.
  unfold to_int64, INT64_MAX. intro Hv.
  rewrite Z.mod_small by lia. lia.
Qed.

Section BindingProperties.
Context {E : NativeEngine}.


End BindingProperties.




(** On the echo engine a value within range that is bound, stepped to and
    read comes back unchanged. *)
Lemma echo_round_trip (v : Z) :
  0 <= v <= INT64_MAX ->
  fst (bind (bind_uint64 v) (fun _ => bind step (fun _ => get_int64))
         (echo_query "SELECT ?" [SQLITE_ROW]))
  = Returns v.
Proof.
  intro Hv. unfold bind at 1, bind_uint64.
  rewrite to_int64_small by assumption.
  destruct (Z.gtb_spec v INT64_MAX); [lia|]. reflexivity.
Qed.

(** ** Transactions *)

Section TransactionProperties.
Context {E : NativeEngine}.
Import Transaction.

(** [exec] adds its statement to the trace, writes nothing to [std::cerr],
    and otherwise only acts on the library. *)
Lemma exec_frame (d : SqliteDatabase) (sql : string) (w : Env) :
  exists r e,
    exec d sql w =
    (r, {| native := e; issued := (issued w ++ [sql])%list; cerr := cerr w |}).
Proof.
  unfold exec, bind, note_issued, set_native, modify, get, throw, ret.
  cbn [native issued cerr].
  destruct (sqlite3_prepare_v2 (native w) (db d) sql) as [[rc p] e].
  destruct (negb (rc =? SQLITE_OK)); [eauto|].
  destruct (sqlite3_step e p) as [res e'].
  cbn [native issued cerr].
  destruct (negb (res =? SQLITE_ROW) && negb (res =? SQLITE_DONE))%bool; eauto.
Qed.

Lemma in_env_exec (d : SqliteDatabase) (sql : string) (s : State) :
  exists r e,
    in_env (exec d sql) s =
    (r, {| env := {| native := e; issued := (issued (env s) ++ [sql])%list;
                     cerr := cerr (env s) |};
           this := this s |}).
Proof.
  destruct (exec_frame d sql (env s)) as [r [e Hexec]].
  exists r, e. unfold in_env, zoom. now rewrite Hexec.
Qed.



(** *** Closed scopes *)







(** *** Active scopes *)





End TransactionProperties.

(** C1: the destructor of a scope that still holds its connection issues
    one statement.  When the count of uncaught exceptions is the one taken
    at construction, the destructor is [exec("COMMIT")], exception included.
    When the count differs (in particular when it has increased, a new
    exception unwinding through the scope), the destructor runs
    [exec("ROLLBACK")] once, on the state it found, and returns normally
    whatever [exec] did: when [exec] returned the state is the one [exec]
    left, and when it threw the state is that one with the report of the
    exception added to [std::cerr]; the exception goes no further. *)
Theorem destructor_commits_or_rolls_back {E : NativeEngine}
    (s : Transaction.State) (d : SqliteDatabase) (uncaught_exceptions : Z)
    (Hactive : Transaction.database (Transaction.this s) = Some d) :
  (Transaction.exception_count (Transaction.this s) = uncaught_exceptions ->
   Transaction.destroy uncaught_exceptions s
     = Transaction.in_env (exec d "COMMIT") s /\
   issued (Transaction.env (snd (Transaction.destroy uncaught_exceptions s)))
     = (issued (Transaction.env s) ++ ["COMMIT"])%list) /\
  (Transaction.exception_count (Transaction.this s) <> uncaught_exceptions ->
   fst (Transaction.destroy uncaught_exceptions s) = Returns tt /\
   issued (Transaction.env (snd (Transaction.destroy uncaught_exceptions s)))
     = (issued (Transaction.env s) ++ ["ROLLBACK"])%list /\
   snd (Transaction.destroy uncaught_exceptions s)
     = match fst (Transaction.in_env (exec d "ROLLBACK") s) with
       | Returns _ => snd (Transaction.in_env (exec d "ROLLBACK") s)
       | Throws e =>
           snd (Transaction.in_env
                  (write_cerr ("Transaction rollback error: " ++ what e))
                  (snd (Transaction.in_env (exec d "ROLLBACK") s)))
       end /\
   native (Transaction.env (snd (Transaction.destroy uncaught_exceptions s)))
     = native (Transaction.env (snd (Transaction.in_env (exec d "ROLLBACK") s)))).
Proof.
  split; intro Hcount.
  - assert (Hrun : Transaction.destroy uncaught_exceptions s
                   = Transaction.in_env (exec d "COMMIT") s).
    { unfold Transaction.destroy, bind, get. rewrite Hactive.
      apply Z.eqb_eq in Hcount. now rewrite Hcount. }
    split; [exact Hrun|]. rewrite Hrun.
    destruct (in_env_exec d "COMMIT" s) as [r [e ->]]. reflexivity.
  - assert (Hrun : Transaction.destroy uncaught_exceptions s
                   = try_catch (Transaction.in_env (exec d "ROLLBACK"))
                       (fun e => Transaction.in_env
                                   (write_cerr ("Transaction rollback error: " ++ what e)))
                       s).
    { unfold Transaction.destroy, bind, get. rewrite Hactive.
      apply Z.eqb_neq in Hcount. now rewrite Hcount. }
    rewrite Hrun. unfold try_catch.
    destruct (in_env_exec d "ROLLBACK" s) as [r [e ->]].
    destruct r as [[]|x]; repeat split; reflexivity.
Qed.

Lemma destructor_commits_or_rolls_back_witness :
  issued (Transaction.env (snd (Transaction.destroy 0 (echo_scope []))))
  = ["COMMIT"] /\
  fst (Transaction.destroy 1 (echo_scope [SQLITE_BUSY])) = Returns tt /\
  issued (Transaction.env (snd (Transaction.destroy 1 (echo_scope [SQLITE_BUSY]))))
  = ["ROLLBACK"].
Proof.
  assert (Hdiffers : Transaction.exception_count
                       (Transaction.this (echo_scope [SQLITE_BUSY])) <> 1)
    by (simpl; lia).
  destruct (proj1 (destructor_commits_or_rolls_back (echo_scope []) echo_db 0
                     eq_refl) eq_refl) as [_ Hcommit].
  destruct (proj2 (destructor_commits_or_rolls_back (echo_scope [SQLITE_BUSY])
                     echo_db 1 eq_refl) Hdiffers) as [Hreturns [Hrollback _]].
  split; [exact Hcommit | split; [exact Hreturns | exact Hrollback]].
Defined.

(** A rollback that fails during unwinding is reported on [std::cerr]. *)
Example failed_rollback_is_logged :
  cerr (Transaction.env (snd (Transaction.destroy 1 (echo_scope [SQLITE_BUSY]))))
  = ["Transaction rollback error: database is locked"].
Proof. reflexivity. Qed.




(** * Further properties of the wrapper *)

(** ** More on the assembled text *)

Lemma append_cancel_l (a x y : string) : a ++ x = a ++ y -> x = y.
Proof.
  induction a as [|c a IH]; simpl; intro H; [exact H|].
  inversion H. now apply IH.
Qed.

Lemma length_append (a b : string) :
  String.length (a ++ b) = (String.length a + String.length b)%nat.
Proof. induction a as [|c a IH]; simpl; [reflexivity | now rewrite IH]. Qed.

Lemma occurrences_append (c : ascii) (a b : string) :
  occurrences c (a ++ b) = (occurrences c a + occurrences c b)%nat.
Proof. induction a as [|x a IH]; simpl; [reflexivity | rewrite IH; lia]. Qed.

Lemma occurrences_replicate (c : ascii) (n : nat) (text : string) :
  occurrences c (replicate n text) = (n * occurrences c text)%nat.
Proof.
  induction n as [|n IH]; simpl; [reflexivity|].
  rewrite occurrences_append, IH. reflexivity.
Qed.

Section MoreTextProperties.
Context {E : NativeEngine}.

Lemma occurrences_separate (buf : string) :
  occurrences "?" (separate buf) = occurrences "?" buf.
Proof.
  unfold separate. destruct (wants_separator buf); [|reflexivity].
  rewrite occurrences_append. simpl. lia.
Qed.

Lemma occurrences_group (columns : nat) :
  occurrences "?" (placeholders_group columns) = columns.
Proof.
  unfold placeholders_group. destruct columns as [|n]; [reflexivity|].
  rewrite concat_placeholders, !occurrences_append, occurrences_replicate.
  simpl. lia.
Qed.

End MoreTextProperties.

(** The template [operator<<] (numbers and other streamable values) writes
    its separating space whenever the buffer is not empty; next to the
    text overloads it gives the same text exactly when the buffer does not
    end in white space, and one more space when it does. *)
Theorem append_value_separates {E : NativeEngine} (q : Query) (shown : string)
    (Hbuf : ss q <> "") (Hshown : shown <> "") :
  ss (append_value shown q) = ss q ++ " " ++ shown /\
  (ss (append_value shown q) = ss (append_string shown q) <->
   isspace (back (ss q)) = false).
Proof.
  split; [now apply ss_append_value|].
  rewrite ss_append_value, ss_append_string by assumption.
  unfold separate, wants_separator.
  apply empty_false_iff in Hbuf. rewrite Hbuf. simpl negb. cbv iota.
  destruct (isspace (back (ss q))); simpl.
  - split; [|discriminate]. intro H. apply append_cancel_l in H.
    apply (f_equal String.length) in H. simpl in H. lia.
  - split; [reflexivity|]. intros _. now rewrite append_assoc.
Qed.

Lemma append_value_separates_witness :
  ss (append_value "5" (set_ss (Query_new echo_db) "LIMIT "))
  = "LIMIT " ++ " " ++ "5".
Proof.
  apply (append_value_separates (set_ss (Query_new echo_db) "LIMIT ") "5");
    discriminate.
Defined.

Lemma ss_add_array2 {E : NativeEngine} (q : Query) (columns rows : nat) :
  ss (add_array2 columns (S rows) q) =
    separate (ss q)
    ++ String.concat ", " (repeat (placeholders_group columns) (S rows)).
Proof.
  unfold add_array2.
  change (add_array_rows columns (S rows) 0 q)
    with (add_array_rows columns rows 1 (add_array columns q)).
  rewrite ss_add_array_rows, ss_add_array, concat_groups by lia.
  now rewrite append_assoc.
Qed.

(** [add_array] on any buffer: the one-argument form appends one group,
    after a space when the buffer is not empty and does not end in white
    space; the two-argument form with no row changes nothing, and with rows
    appends, after that same possible space, the groups joined by ", ". *)
Theorem add_array_on_buffer {E : NativeEngine} (q : Query) (columns rows : nat) :
  ss (add_array columns q) = separate (ss q) ++ placeholders_group columns /\
  add_array2 columns 0 q = q /\
  ss (add_array2 columns (S rows) q) =
    separate (ss q)
    ++ String.concat ", " (repeat (placeholders_group columns) (S rows)).
Proof.
  split; [apply ss_add_array|]. split; [reflexivity | apply ss_add_array2].
Qed.

(** [add_array(columns, rows)] appends exactly [columns * rows] placeholder
    marks, whatever the buffer held: as many as values have to be bound. *)
Theorem add_array_placeholder_count {E : NativeEngine}
    (q : Query) (columns rows : nat) :
  occurrences "?" (ss (add_array2 columns rows q))
  = (occurrences "?" (ss q) + columns * rows)%nat.
Proof.
  destruct rows as [|rows];
    [change (add_array2 columns 0 q) with q; lia|].
  rewrite ss_add_array2, concat_groups.
  rewrite !occurrences_append, occurrences_replicate.
  rewrite occurrences_append, occurrences_separate, occurrences_group.
  change (occurrences "?" ", ") with O. nia.
Qed.

(** ** Preparing, binding and stepping *)

Section StatementProperties.
Context {E : NativeEngine}.

Ltac run :=
  unfold bind, get, on_self, set_eng, modify, throw_db, throw, ret;
  cbn [eng self stmt bind_idx col_idx col_count database ss
       set_stmt set_bind_idx set_col_idx set_col_count set_ss isNull].



Lemma bind_with_prepared
    (native : engine -> option sqlite3_stmt -> Z -> Z * engine)
    (s : QState) (p : sqlite3_stmt) :
  stmt (self s) = Some p ->
  bind_with native s =
  ((if fst (native (eng s) (Some p) (bind_idx (self s) + 1)) =? SQLITE_OK
    then Returns tt
    else Throws (DatabaseException_of
                   (snd (native (eng s) (Some p) (bind_idx (self s) + 1)))
                   (db (database (self s))))),
   after_bind s (snd (native (eng s) (Some p) (bind_idx (self s) + 1)))).
Proof.
  intro Hp. unfold bind_with. run. rewrite Hp. run. rewrite Hp.
  destruct (native (eng s) (Some p) (bind_idx (self s) + 1)) as [rc e].
  cbn [fst snd]. destruct (rc =? SQLITE_OK); reflexivity.
Qed.

Lemma step_prepared (s : QState) (p : sqlite3_stmt) :
  stmt (self s) = Some p ->
  step s =
  ((if fst (sqlite3_step (eng s) (Some p)) =? SQLITE_ROW then Returns true
    else if fst (sqlite3_step (eng s) (Some p)) =? SQLITE_DONE then Returns false
    else Throws (DatabaseException_of (snd (sqlite3_step (eng s) (Some p)))
                   (db (database (self s))))),
   {| eng := snd (sqlite3_step (eng s) (Some p));
      self := set_col_idx (self s) 0 |}).
Proof.
  intro Hp. unfold step. run. rewrite Hp. run. rewrite Hp.
  destruct (sqlite3_step (eng s) (Some p)) as [rc e]. cbn [fst snd].
  destruct (rc =? SQLITE_ROW); [reflexivity|].
  destruct (rc =? SQLITE_DONE); reflexivity.
Qed.

Lemma to_int64_uint32 (v : Z) : 0 <= v <= UINT32_MAX -> to_int64 v = v.
Proof. unfold UINT32_MAX. intro H. apply to_int64_small. unfold INT64_MAX. lia. Qed.

End StatementProperties.

(** Every bind on a prepared statement uses up the next position: the bind
    cursor is one further afterwards whether the native call accepted the
    value or not, nothing else in the object changes, and each of the calls
    returns exactly when its native bind at that position, with the value
    it was given, returns [SQLITE_OK]. *)
Theorem bind_consumes_position {E : NativeEngine} {T : NativeText E}
    (s : QState) (p : sqlite3_stmt) (v : Z) (cstr : option string)
    (text : string) (constant : bool)
    (Hp : stmt (self s) = Some p) :
  let next := set_bind_idx (self s) (bind_idx (self s) + 1) in
  (self (snd (bind_int32 v s)) = next /\
   self (snd (bind_int64 v s)) = next /\
   self (snd (bind_null s)) = next /\
   self (snd (bind_cstr cstr constant s)) = next /\
   self (snd (bind_string text constant s)) = next) /\
  (fst (bind_int32 v s) = Returns tt <->
   fst (sqlite3_bind_int (eng s) (Some p) (bind_idx (self s) + 1) v) = SQLITE_OK) /\
  (fst (bind_int64 v s) = Returns tt <->
   fst (sqlite3_bind_int64 (eng s) (Some p) (bind_idx (self s) + 1) v) = SQLITE_OK) /\
  (fst (bind_null s) = Returns tt <->
   fst (sqlite3_bind_null (eng s) (Some p) (bind_idx (self s) + 1)) = SQLITE_OK) /\
  (fst (bind_cstr cstr constant s) = Returns tt <->
   fst (sqlite3_bind_text (eng s) (Some p) (bind_idx (self s) + 1) cstr (-1)
          constant) = SQLITE_OK) /\
  (fst (bind_string text constant s) = Returns tt <->
   fst (sqlite3_bind_text (eng s) (Some p) (bind_idx (self s) + 1) (Some text)
          (to_int32 (Z.of_nat (String.length text))) constant) = SQLITE_OK) /\
  eng (snd (bind_int32 v s))
    = snd (sqlite3_bind_int (eng s) (Some p) (bind_idx (self s) + 1) v) /\
  eng (snd (bind_int64 v s))
    = snd (sqlite3_bind_int64 (eng s) (Some p) (bind_idx (self s) + 1) v) /\
  eng (snd (bind_null s))
    = snd (sqlite3_bind_null (eng s) (Some p) (bind_idx (self s) + 1)) /\
  eng (snd (bind_cstr cstr constant s))
    = snd (sqlite3_bind_text (eng s) (Some p) (bind_idx (self s) + 1) cstr (-1)
             constant) /\
  eng (snd (bind_string text constant s))
    = snd (sqlite3_bind_text (eng s) (Some p) (bind_idx (self s) + 1) (Some text)
             (to_int32 (Z.of_nat (String.length text))) constant).
Proof.
  intro next. unfold bind_int32, bind_int64, bind_null, bind_cstr, bind_string.
  rewrite !(bind_with_prepared _ s p Hp). cbn [fst snd after_bind self eng].
  assert (Hiff : forall rc : Z, forall e : exception,
             (if rc =? SQLITE_OK then Returns tt else Throws e) = Returns tt
             <-> rc = SQLITE_OK).
  { intros rc e. destruct (Z.eqb_spec rc SQLITE_OK); split; congruence. }
  split; [repeat split|].
  repeat (split; [apply Hiff|]).
  repeat split.
Qed.

Lemma bind_consumes_position_witness :
  bind_idx (self (snd (bind_int64 7 (snd (bind_int64 8 (echo_prepared [])))))) = 2 /\
  fst (bind_int64 8 (echo_prepared [])) = Returns tt.
Proof.
  pose proof (bind_consumes_position (snd (bind_int64 8 (echo_prepared []))) 0%nat 7
                None "" false eq_refl) as [[_ [Hcursor _]] _].
  pose proof (bind_consumes_position (echo_prepared []) 0%nat 8 None "" false
                eq_refl) as [_ [_ [Hreturns _]]].
  split; [now rewrite Hcursor | apply Hreturns; reflexivity].
Defined.



(** Once a statement is prepared, text appended to the builder no longer
    matters: a step or a bind has the same outcome and the same effect on
    the library and on the cursors whatever the buffer holds (until
    [reset]). *)
Theorem prepared_statement_ignores_text {E : NativeEngine}
    (s : QState) (p : sqlite3_stmt) (text : string) (v : Z)
    (Hp : stmt (self s) = Some p) :
  step (with_text s text) = (fst (step s), with_text (snd (step s)) text) /\
  bind_int64 v (with_text s text)
  = (fst (bind_int64 v s), with_text (snd (bind_int64 v s)) text).
Proof.
  split.
  - rewrite (step_prepared s p Hp), (step_prepared (with_text s text) p Hp).
    reflexivity.
  - unfold bind_int64.
    rewrite (bind_with_prepared _ s p Hp),
            (bind_with_prepared _ (with_text s text) p Hp).
    reflexivity.
Qed.

Lemma prepared_statement_ignores_text_witness :
  step (with_text (echo_prepared [SQLITE_ROW]) "DROP TABLE t")
  = (Returns true,
     with_text (snd (step (echo_prepared [SQLITE_ROW]))) "DROP TABLE t").
Proof.
  apply (prepared_statement_ignores_text (echo_prepared [SQLITE_ROW]) 0%nat
           "DROP TABLE t" 0 eq_refl).
Defined.

(** [bind(uint32_t)] binds the same number through [bind(int64_t)]: no
    unsigned 32-bit value changes under the cast. *)
Theorem bind_uint32_as_int64 {E : NativeEngine} (s : QState) (v : Z)
    (Hv : 0 <= v <= UINT32_MAX) :
  bind_uint32 v s = bind_int64 v s.
Proof. unfold bind_uint32. now rewrite to_int64_uint32. Qed.

Lemma bind_uint32_as_int64_witness :
  bind_uint32 UINT32_MAX (echo_prepared []) = bind_int64 4294967295 (echo_prepared []).
Proof.
  apply (bind_uint32_as_int64 (echo_prepared []) UINT32_MAX).
  unfold UINT32_MAX. lia.
Defined.

(** A step that finds a row puts the column cursor back on the first
    column, wherever it stood: the read that follows returns column 0 of the
    new row and leaves the cursor on column 1. *)
Theorem step_then_read_first_column {E : NativeEngine}
    (s : QState) (p : sqlite3_stmt) (e : engine)
    (Hp : stmt (self s) = Some p)
    (Hrow : sqlite3_step (eng s) (Some p) = (SQLITE_ROW, e))
    (Hcols : 0 < col_count (self s)) :
  bind step (fun _ => get_int64) s
  = (Returns (sqlite3_column_int64 e (Some p) 0),
     {| eng := e; self := set_col_idx (self s) 1 |}).
Proof.
  unfold bind. rewrite (step_prepared s p Hp), Hrow. cbn [fst snd].
  rewrite get_int64_spec. cbn [self eng col_idx col_count set_col_idx].
  destruct (Z.geb_spec 0 (col_count (self s))); [lia|].
  unfold current_int64, advanced. cbn [self eng col_idx stmt set_col_idx].
  now rewrite Hp.
Qed.

Lemma step_then_read_first_column_witness :
  fst (bind step (fun _ => get_int64)
         (snd (bind_int64 42 (echo_prepared [SQLITE_ROW]))))
  = Returns 42.
Proof.
  rewrite (step_then_read_first_column
             (snd (bind_int64 42 (echo_prepared [SQLITE_ROW]))) 0%nat
             (snd (sqlite3_step
                     (eng (snd (bind_int64 42 (echo_prepared [SQLITE_ROW]))))
                     (Some 0%nat)))
             eq_refl eq_refl);
    [reflexivity | simpl; lia].
Defined.

(** [clear_bindings] never throws and starts the positions over: on a
    prepared statement the next bind is made at position 1 (on the library
    state left by [sqlite3_reset] and [sqlite3_clear_bindings]), the text,
    the statement and the column count being kept; on a statement that is
    not prepared the library is not called at all. *)
Theorem clear_bindings_restarts_positions {E : NativeEngine} (s : QState) (v : Z) :
  fst (clear_bindings s) = Returns tt /\
  (stmt (self s) = None -> eng (snd (clear_bindings s)) = eng s) /\
  self (snd (clear_bindings s)) = set_col_idx (set_bind_idx (self s) 0) 0 /\
  (forall p, stmt (self s) = Some p ->
     fst (bind clear_bindings (fun _ => bind_int64 v) s) = Returns tt <->
     fst (sqlite3_bind_int64
            (sqlite3_clear_bindings (sqlite3_reset (eng s) (Some p)) (Some p))
            (Some p) 1 v) = SQLITE_OK).
Proof.
  assert (Hrun : clear_bindings s =
                 (Returns tt,
                  {| eng := match stmt (self s) with
                            | Some p => sqlite3_clear_bindings
                                          (sqlite3_reset (eng s) (Some p)) (Some p)
                            | None => eng s
                            end;
                     self := set_col_idx (set_bind_idx (self s) 0) 0 |})).
  { unfold clear_bindings, bind, get, on_self, set_eng, modify, ret.
    destruct (stmt (self s)) eqn:Hs; reflexivity. }
  rewrite Hrun. cbn [fst snd eng self].
  split; [reflexivity|]. split; [now intros ->|]. split; [reflexivity|].
  intros p Hp. unfold bind at 1. rewrite Hrun, Hp. unfold bind_int64.
  rewrite (bind_with_prepared _ _ p) by exact Hp.
  cbn [fst snd eng self bind_idx set_col_idx set_bind_idx]. 
  change (0 + 1) with 1.
  destruct (Z.eqb_spec
              (fst (sqlite3_bind_int64
                      (sqlite3_clear_bindings (sqlite3_reset (eng s) (Some p)) (Some p))
                      (Some p) 1 v)) SQLITE_OK); split; congruence.
Qed.

Lemma clear_bindings_restarts_positions_witness :
  fst (bind clear_bindings (fun _ => bind_int64 9)
         (snd (bind_int64 8 (echo_prepared [])))) = Returns tt.
Proof.
  apply (proj2 (proj2 (proj2 (proj2 (clear_bindings_restarts_positions
                                       (snd (bind_int64 8 (echo_prepared []))) 9)))
                  0%nat eq_refl)).
  reflexivity.
Defined.

(** [reset] never throws, finalizes the statement, and leaves a builder
    that cannot be told from a new one on the same connection: a fragment
    appended next becomes the whole text, with no separator in front, and
    the statement is to be prepared again. *)
Theorem reset_gives_fresh_builder {E : NativeEngine} (s : QState) (fragment : string) :
  reset s = (Returns tt,
             {| eng := sqlite3_finalize (eng s) (stmt (self s));
                self := create_query (database (self s)) |}) /\
  (fragment <> "" ->
   append_string fragment (self (snd (reset s)))
   = set_ss (create_query (database (self s))) fragment).
Proof.
  split; [reflexivity|]. intro Hf.
  unfold append_string. apply empty_false_iff in Hf. now rewrite Hf.
Qed.

Lemma reset_gives_fresh_builder_witness :
  ss (append_string "SELECT 2" (self (snd (reset (echo_on_row (Echo.VInt 1) 1)))))
  = "SELECT 2".
Proof.
  rewrite (proj2 (reset_gives_fresh_builder (echo_on_row (Echo.VInt 1) 1) "SELECT 2"));
    [reflexivity | discriminate].
Defined.

(** ** More on reading the columns *)

Section MoreReadingProperties.
Context {E : NativeEngine}.

Lemma skip_spec (s : QState) :
  skip s =
  if col_idx (self s) >=? col_count (self s)
  then (Throws column_out_of_range, s)
  else (Returns tt, advanced s).
Proof.
  unfold skip, bind.
  destruct (Z.geb_spec (col_idx (self s)) (col_count (self s))) as [Hge|Hlt].
  - rewrite check_column_past by lia. reflexivity.
  - rewrite check_column_within by lia. reflexivity.
Qed.

Lemma spec_after_read {A : Type} (s : QState) (r : outcome A * QState)
    (a : outcome A) :
  r = (if col_idx (self s) >=? col_count (self s)
       then (Throws column_out_of_range, s)
       else (a, advanced s)) ->
  self (snd r) = after_read (self s).
Proof.
  intros ->. unfold after_read.
  destruct (Z.geb_spec (col_idx (self s)) (col_count (self s)));
    destruct (Z.ltb_spec (col_idx (self s)) (col_count (self s)));
    try lia; reflexivity.
Qed.

Lemma after_get_int64 {A : Type} (k : Z -> M QState A) (s : QState) :
  (forall v s', snd (k v s') = s') ->
  self (snd (bind get_int64 k s)) = after_read (self s).
Proof.
  intro Hk. unfold bind.
  pose proof (spec_after_read s _ _ (get_int64_spec s)) as Hm.
  destruct (get_int64 s) as [[v|e] s']; cbn [snd] in *; [now rewrite Hk | exact Hm].
Qed.

Lemma after_read_within (q : Query) :
  col_idx q <= col_count q ->
  col_idx q <= col_idx (after_read q) <= col_count (after_read q) /\
  col_count (after_read q) = col_count q.
Proof.
  intro Hinv. unfold after_read.
  destruct (Z.ltb_spec (col_idx q) (col_count q));
    cbn [col_idx col_count set_col_idx]; lia.
Qed.

Lemma at_column_same (s : QState) : at_column s (col_idx (self s)) = s.
Proof. destruct s as [e [d t p b c n]]. reflexivity. Qed.

Lemma skips_spec (n : nat) :
  forall s : QState,
    col_idx (self s) <= col_count (self s) ->
    skips n s =
    if col_idx (self s) + Z.of_nat n <=? col_count (self s)
    then (Returns tt, at_column s (col_idx (self s) + Z.of_nat n))
    else (Throws column_out_of_range, at_column s (col_count (self s))).
Proof.
  induction n as [|n IH]; intros s Hinv.
  - cbn [skips Z.of_nat]. rewrite Z.add_0_r.
    destruct (Z.leb_spec (col_idx (self s)) (col_count (self s))); [|lia].
    now rewrite at_column_same.
  - cbn [skips]. unfold bind. rewrite skip_spec.
    destruct (Z.geb_spec (col_idx (self s)) (col_count (self s))) as [Hge|Hlt].
    + assert (Heq : col_count (self s) = col_idx (self s)) by lia.
      destruct (Z.leb_spec (col_idx (self s) + Z.of_nat (S n)) (col_count (self s)));
        [lia|].
      rewrite Heq. now rewrite at_column_same.
    + rewrite IH by (unfold advanced; cbn [self col_idx col_count set_col_idx]; lia).
      unfold advanced, at_column. cbn [self eng col_idx col_count set_col_idx].
      replace (col_idx (self s) + 1 + Z.of_nat n)
        with (col_idx (self s) + Z.of_nat (S n)) by lia.
      reflexivity.
Qed.

End MoreReadingProperties.

(** What the reading functions do to the builder: [is_null] nothing; each
    of the others moves the column cursor one column further when it stood
    on a column within range, whether the call then returns or throws, and
    otherwise leaves the builder as it was; no other field changes.  So
    after any of them a cursor that was not past the column count is still
    not past it, and has not moved back. *)
Theorem reads_advance_within_count {E : NativeEngine}
    (s : QState) (delimiter : ascii)
    (Hinv : col_idx (self s) <= col_count (self s)) :
  self (snd (is_null s)) = self s /\
  (self (snd (skip s)) = after_read (self s) /\
   self (snd (get_string s)) = after_read (self s) /\
   self (snd (get_int32 s)) = after_read (self s) /\
   self (snd (get_uint32 s)) = after_read (self s) /\
   self (snd (get_int64 s)) = after_read (self s) /\
   self (snd (get_uint64 s)) = after_read (self s) /\
   self (snd (get_double s)) = after_read (self s) /\
   self (snd (get_int64_array delimiter s)) = after_read (self s)) /\
  Forall (fun s' : QState =>
            col_idx (self s) <= col_idx (self s') <= col_count (self s') /\
            col_count (self s') = col_count (self s))
    [snd (skip s); snd (get_string s); snd (get_int32 s); snd (get_uint32 s);
     snd (get_int64 s); snd (get_uint64 s); snd (get_double s);
     snd (get_int64_array delimiter s)].
Proof.
  assert (Hall :
    self (snd (skip s)) = after_read (self s) /\
    self (snd (get_string s)) = after_read (self s) /\
    self (snd (get_int32 s)) = after_read (self s) /\
    self (snd (get_uint32 s)) = after_read (self s) /\
    self (snd (get_int64 s)) = after_read (self s) /\
    self (snd (get_uint64 s)) = after_read (self s) /\
    self (snd (get_double s)) = after_read (self s) /\
    self (snd (get_int64_array delimiter s)) = after_read (self s)).
  { split; [exact (spec_after_read s _ _ (skip_spec s))|].
    split; [exact (spec_after_read s _ _ (get_string_spec s))|].
    split; [exact (spec_after_read s _ _ (guarded_read sqlite3_column_int s))|].
    split; [apply after_get_int64; intros v s'; unfold throw, ret;
            destruct ((v <? 0) || (v >? UINT32_MAX))%bool; reflexivity|].
    split; [exact (spec_after_read s _ _ (get_int64_spec s))|].
    split; [apply after_get_int64; intros v s'; unfold throw, ret;
            destruct (v <? 0); reflexivity|].
    split; [exact (spec_after_read s _ _ (guarded_read sqlite3_column_double s))|].
    unfold get_int64_array, bind.
    pose proof (spec_after_read s _ _ (get_string_spec s)) as Hm.
    destruct (get_string s) as [[text|e] s']; cbn [snd] in *; [|exact Hm].
    destruct (getline_loop delimiter text []); exact Hm. }
  split; [reflexivity|]. split; [exact Hall|].
  pose proof (after_read_within (self s) Hinv) as Hwithin.
  destruct Hall as [H1 [H2 [H3 [H4 [H5 [H6 [H7 H8]]]]]]].
  repeat constructor;
    rewrite ?H1, ?H2, ?H3, ?H4, ?H5, ?H6, ?H7, ?H8; apply Hwithin.
Qed.

Lemma reads_advance_within_count_witness :
  self (snd (get_uint32 (echo_on_row (Echo.VInt (-1)) 0)))
  = self (echo_on_row (Echo.VInt (-1)) 1) /\
  self (snd (get_string (echo_on_row (Echo.VInt 5) 1)))
  = self (echo_on_row (Echo.VInt 5) 1).
Proof.
  assert (H0 : col_idx (self (echo_on_row (Echo.VInt (-1)) 0))
               <= col_count (self (echo_on_row (Echo.VInt (-1)) 0)))
    by (simpl; lia).
  assert (H1 : col_idx (self (echo_on_row (Echo.VInt 5) 1))
               <= col_count (self (echo_on_row (Echo.VInt 5) 1)))
    by (simpl; lia).
  destruct (reads_advance_within_count (echo_on_row (Echo.VInt (-1)) 0) "," H0)
    as [_ [[_ [_ [_ [Huint32 _]]]] _]].
  destruct (reads_advance_within_count (echo_on_row (Echo.VInt 5) 1) "," H1)
    as [_ [[_ [Hstring _]] _]].
  split; [rewrite Huint32 | rewrite Hstring]; reflexivity.
Defined.

(** Skipping [n] columns in a row from a cursor within the column count:
    the calls all return, leaving the cursor [n] columns further, exactly
    when that many columns are left; otherwise the run stops with "Column
    is out of range" once the cursor has reached the column count. *)
Theorem skips_up_to_the_count {E : NativeEngine} (s : QState) (n : nat)
    (Hinv : col_idx (self s) <= col_count (self s)) :
  skips n s =
  if col_idx (self s) + Z.of_nat n <=? col_count (self s)
  then (Returns tt, at_column s (col_idx (self s) + Z.of_nat n))
  else (Throws column_out_of_range, at_column s (col_count (self s))).
Proof. now apply skips_spec. Qed.

Lemma skips_up_to_the_count_witness :
  skips 1 (echo_on_row (Echo.VInt 10) 0)
  = (Returns tt, echo_on_row (Echo.VInt 10) 1) /\
  skips 2 (echo_on_row (Echo.VInt 10) 0)
  = (Throws column_out_of_range, echo_on_row (Echo.VInt 10) 1).
Proof.
  split.
  - apply (skips_up_to_the_count (echo_on_row (Echo.VInt 10) 0) 1). simpl. lia.
  - apply (skips_up_to_the_count (echo_on_row (Echo.VInt 10) 0) 2). simpl. lia.
Defined.

(** On a column within range the unsigned reads return the stored number
    itself whenever it is one of the type (0 to 2^32 - 1 for [get_uint32],
    0 to 2^63 - 1 for [get_uint64]), and [get_string] returns the empty
    string for a column the library reports as a null pointer. *)
Theorem reads_return_stored_value {E : NativeEngine} (s : QState)
    (Hcol : col_idx (self s) < col_count (self s)) :
  (0 <= current_int64 s <= UINT32_MAX ->
   get_uint32 s = (Returns (current_int64 s), advanced s)) /\
  (0 <= current_int64 s <= INT64_MAX ->
   get_uint64 s = (Returns (current_int64 s), advanced s)) /\
  (sqlite3_column_text (eng s) (stmt (self s)) (col_idx (self s)) = None ->
   get_string s = (Returns "", advanced s)).
Proof.
  assert (Hgeb : (col_idx (self s) >=? col_count (self s)) = false)
    by (destruct (Z.geb_spec (col_idx (self s)) (col_count (self s))); [lia | reflexivity]).
  split; [|split].
  - intro Hv. unfold get_uint32, bind. rewrite get_int64_spec, Hgeb.
    destruct (Z.ltb_spec (current_int64 s) 0); [lia|].
    destruct (Z.gtb_spec (current_int64 s) UINT32_MAX); [lia|].
    cbn [orb]. unfold ret, to_uint32. rewrite Z.mod_small; [reflexivity|].
    unfold UINT32_MAX in Hv. lia.
  - intro Hv. unfold get_uint64, bind. rewrite get_int64_spec, Hgeb.
    destruct (Z.ltb_spec (current_int64 s) 0); [lia|].
    unfold ret, to_uint64. rewrite Z.mod_small; [reflexivity|].
    unfold INT64_MAX in Hv. lia.
  - intro Hnull. rewrite get_string_spec, Hgeb. unfold current_text.
    now rewrite Hnull.
Qed.

Lemma reads_return_stored_value_witness :
  get_uint32 (echo_on_row (Echo.VInt 4294967295) 0)
  = (Returns 4294967295, echo_on_row (Echo.VInt 4294967295) 1) /\
  get_string (echo_on_row Echo.VNull 0) = (Returns "", echo_on_row Echo.VNull 1).
Proof.
  split.
  - apply (reads_return_stored_value (echo_on_row (Echo.VInt 4294967295) 0));
      [simpl; lia | vm_compute; split; discriminate].
  - apply (reads_return_stored_value (echo_on_row Echo.VNull 0));
      [simpl; lia | reflexivity].
Defined.

(** ** More on the delimited integer array *)

(** The loop reads the segments one after the other and parses each. *)
Lemma getline_loop_parses (d : ascii) (n : nat) :
  forall (text : string) (result : list Z),
    (String.length text <= n)%nat ->
    getline_loop d text result = parse_segments (segments d text) result.
Proof.
  induction n as [|n IH]; intros text result Hlen.
  - destruct text; [|simpl in Hlen; lia].
    now rewrite getline_loop_equation_1, segments_equation_1.
  - destruct text as [|c r].
    { now rewrite getline_loop_equation_1, segments_equation_1. }
    rewrite getline_loop_step, segments_step. cbn [parse_segments].
    destruct (stoll (fst (getline (String c r) d))); [|reflexivity].
    apply IH. pose proof (getline_consumes c r d). simpl in *. lia.
Qed.

Lemma parse_segments_returns (segs : list string) :
  forall (result l : list Z),
    parse_segments segs result = Returns l <->
    exists vs, l = (result ++ vs)%list /\
               Forall2 (fun seg v => stoll seg = Returns v) segs vs.
Proof.
  induction segs as [|seg rest IH]; intros result l; cbn [parse_segments].
  - split.
    + intro H. inversion H. exists []. split; [now rewrite app_nil_r | constructor].
    + intros [vs [-> Hall]]. inversion Hall. now rewrite app_nil_r.
  - destruct (stoll seg) as [v|e] eqn:Hseg.
    + rewrite IH. split.
      * intros [vs [-> Hall]]. exists (v :: vs).
        split; [now rewrite <- app_assoc | now constructor].
      * intros [vs [-> Hall]]. inversion Hall as [|? v' ? vs' Hv Hrest]; subst.
        assert (v' = v) by congruence. subst.
        exists vs'. split; [now rewrite <- app_assoc | assumption].
    + split; [discriminate|].
      intros [vs [_ Hall]]. inversion Hall; congruence.
Qed.

(** What one [getline] leaves: the text is the segment, the delimiter and
    the rest, or the text has no delimiter and is the segment. *)
Lemma getline_cases (s : string) (d : ascii) :
  s = fst (getline s d) ++ String d (snd (getline s d)) \/
  (s = fst (getline s d) /\ snd (getline s d) = "" /\ occurrences d s = O).
Proof.
  induction s as [|c r IH]; [right; repeat split|].
  cbn [getline occurrences]. destruct (Ascii.eqb_spec c d) as [->|Hcd].
  - left. reflexivity.
  - destruct (getline r d) as [tmp rest]. cbn [fst snd] in *.
    destruct IH as [Hfound|[Hall [Hrest Hfree]]].
    + left. cbn [append]. now rewrite <- Hfound.
    + right. repeat split; [now rewrite <- Hall | assumption | assumption].
Qed.

Lemma getline_segment_free (s : string) (d : ascii) :
  occurrences d (fst (getline s d)) = O.
Proof.
  induction s as [|c r IH]; [reflexivity|].
  cbn [getline]. destruct (Ascii.eqb c d) eqn:Hcd; [reflexivity|].
  destruct (getline r d) as [tmp rest]. cbn [fst occurrences] in *.
  now rewrite Hcd, IH.
Qed.

Lemma back_not_occurring (s : string) (d : ascii) :
  occurrences d s = O -> ends_with d s = false.
Proof.
  unfold ends_with. induction s as [|c r IH]; [reflexivity|].
  cbn [occurrences empty negb andb]. destruct (Ascii.eqb c d) eqn:Hcd; [discriminate|].
  intro Hfree. specialize (IH Hfree). destruct r as [|c' r']; [exact Hcd|].
  exact IH.
Qed.

Lemma ends_with_append (a b : string) (d : ascii) :
  b <> "" -> ends_with d (a ++ b) = ends_with d b.
Proof.
  intro Hb. unfold ends_with. rewrite empty_append, back_append by assumption.
  apply empty_false_iff in Hb. now rewrite Hb, andb_false_r.
Qed.

Lemma segments_join (d : ascii) (n : nat) :
  forall text : string,
    (String.length text <= n)%nat ->
    text = String.concat (String d "") (segments d text)
           ++ (if ends_with d text then String d "" else "") /\
    Forall (fun seg => occurrences d seg = O) (segments d text).
Proof.
  induction n as [|n IH]; intros text Hlen.
  - destruct text; [|simpl in Hlen; lia].
    rewrite segments_equation_1. split; [reflexivity | constructor].
  - destruct text as [|c r].
    { rewrite segments_equation_1. split; [reflexivity | constructor]. }
    rewrite segments_step.
    pose proof (getline_consumes c r d) as Hshort.
    pose proof (getline_segment_free (String c r) d) as Hfree.
    destruct (IH (snd (getline (String c r) d))) as [Hjoin Hall];
      [simpl in *; lia|].
    split; [|now constructor].
    pose proof (getline_cases (String c r) d) as Hcases.
    set (tmp := fst (getline (String c r) d)) in *.
    destruct Hcases as [Hfound|[Hwhole [Hrest Hnone]]].
    + destruct (snd (getline (String c r) d)) as [|c' r'] eqn:Hsnd.
      * rewrite segments_equation_1. cbn [String.concat].
        rewrite Hfound.
        rewrite (ends_with_append tmp (String d "") d) by discriminate.
        unfold ends_with. cbn [empty back negb andb]. now rewrite Ascii.eqb_refl.
      * rewrite Hfound.
        rewrite (ends_with_append tmp (String d (String c' r')) d) by discriminate.
        change (String d (String c' r')) with (String d "" ++ String c' r').
        rewrite (ends_with_append (String d "") (String c' r') d) by discriminate.
        rewrite segments_step in *.
        set (seg := fst (getline (String c' r') d)) in *.
        set (more := segments d (snd (getline (String c' r') d))) in *.
        change (String.concat (String d "") (tmp :: seg :: more))
          with (tmp ++ String d "" ++ String.concat (String d "") (seg :: more)).
        rewrite Hjoin at 1. now rewrite !append_assoc.
    + rewrite Hrest, segments_equation_1. cbn [String.concat].
      rewrite (back_not_occurring _ d Hnone), append_empty_r. exact Hwhole.
Qed.

(** [get_int64_array] on a column within range returns what parsing the
    segments of the text in order gives, the cursor one column further: it
    returns a sequence exactly when every segment parses, the sequence
    being the values of the segments in the order of the text, and it
    throws the exception of the first segment that does not. *)
Theorem get_int64_array_in_order {E : NativeEngine}
    (s : QState) (delimiter : ascii)
    (Hcol : col_idx (self s) < col_count (self s)) :
  get_int64_array delimiter s
  = (parse_segments (segments delimiter (current_text s)) [], advanced s) /\
  forall l : list Z,
    fst (get_int64_array delimiter s) = Returns l <->
    Forall2 (fun seg v => stoll seg = Returns v)
      (segments delimiter (current_text s)) l.
Proof.
  assert (Hrun : get_int64_array delimiter s
                 = (parse_segments (segments delimiter (current_text s)) [],
                    advanced s)).
  { unfold get_int64_array, bind. rewrite get_string_spec.
    destruct (Z.geb_spec (col_idx (self s)) (col_count (self s))); [lia|].
    rewrite (getline_loop_parses delimiter _ (current_text s) [] (le_n _)).
    destruct (parse_segments _ _); reflexivity. }
  split; [exact Hrun|]. intro l. rewrite Hrun. cbn [fst].
  rewrite parse_segments_returns. split.
  - intros [vs [-> Hall]]. exact Hall.
  - intro Hall. exists l. split; [reflexivity | exact Hall].
Qed.

Lemma get_int64_array_in_order_witness :
  get_int64_array ";" (echo_on_row (Echo.VText "10;-20;30") 0)
  = (Returns [10; -20; 30], echo_on_row (Echo.VText "10;-20;30") 1).
Proof.
  assert (Hcol : col_idx (self (echo_on_row (Echo.VText "10;-20;30") 0))
                 < col_count (self (echo_on_row (Echo.VText "10;-20;30") 0)))
    by (simpl; lia).
  rewrite (proj1 (get_int64_array_in_order
                    (echo_on_row (Echo.VText "10;-20;30") 0) ";" Hcol)).
  reflexivity.
Defined.

(** The segments [get_int64_array] parses are delimiter-free, and put back
    together with the delimiter between them they give the text again, less
    one delimiter when the text ends with it: a delimiter at the very end
    opens no further (empty) segment, every other delimiter does. *)
Theorem segments_rebuild_text (delimiter : ascii) (text : string) :
  text = String.concat (String delimiter "") (segments delimiter text)
         ++ (if ends_with delimiter text then String delimiter "" else "") /\
  Forall (fun seg => occurrences delimiter seg = O) (segments delimiter text) /\
  (text = "" -> segments delimiter text = []).
Proof.
  destruct (segments_join delimiter _ text (le_n _)) as [Hjoin Hfree].
  split; [exact Hjoin|]. split; [exact Hfree|].
  intros ->. apply segments_equation_1.
Qed.

(** ** Executing statements and opening transactions *)

Section ConnectionProperties.
Context {E : NativeEngine}.

Lemma exec_run (d : SqliteDatabase) (sql : string) (w : Env)
    (rc res : Z) (p : option sqlite3_stmt) (e e' : engine) :
  sqlite3_prepare_v2 (native w) (db d) sql = (rc, p, e) ->
  sqlite3_step e p = (res, e') ->
  exec d sql w =
  if rc =? SQLITE_OK
  then ((if ((res =? SQLITE_ROW) || (res =? SQLITE_DONE))%bool
         then Returns tt
         else Throws (DatabaseException_of (sqlite3_finalize e' p) (db d))),
        {| native := sqlite3_finalize e' p;
           issued := (issued w ++ [sql])%list; cerr := cerr w |})
  else (Throws (DatabaseException_of e (db d)),
        {| native := e; issued := (issued w ++ [sql])%list; cerr := cerr w |}).
Proof.
  intros Hprepare Hstep.
  unfold exec, bind, note_issued, set_native, modify, get, throw, ret.
  cbn [native issued cerr]. rewrite Hprepare.
  destruct (rc =? SQLITE_OK); cbn [negb]; [|reflexivity].
  rewrite Hstep. cbn [native issued cerr].
  destruct (res =? SQLITE_ROW), (res =? SQLITE_DONE); reflexivity.
Qed.

(** The destructor of an active scope issues the one statement its
    exception counts choose. *)
Lemma destroy_issues (s : Transaction.State) (d : SqliteDatabase) (u : Z) :
  Transaction.database (Transaction.this s) = Some d ->
  issued (Transaction.env (snd (Transaction.destroy u s)))
  = (issued (Transaction.env s)
       ++ [if Transaction.exception_count (Transaction.this s) =? u
           then "COMMIT" else "ROLLBACK"])%list.
Proof.
  intro Hd. unfold Transaction.destroy, bind, get. rewrite Hd.
  destruct (Transaction.exception_count (Transaction.this s) =? u).
  - destruct (in_env_exec d "COMMIT" s) as [r [e ->]]. reflexivity.
  - unfold try_catch. destruct (in_env_exec d "ROLLBACK" s) as [r [e ->]].
    destruct r; reflexivity.
Qed.

End ConnectionProperties.

(** [exec] returns exactly when the statement could be prepared and its
    one step gave [SQLITE_ROW] or [SQLITE_DONE] (a row is not an error).  A
    statement that could not be prepared is neither stepped nor finalized;
    one that could is stepped once and finalized whatever the step gave. *)
Theorem exec_succeeds_iff {E : NativeEngine} (d : SqliteDatabase) (sql : string)
    (w : Env) (rc res : Z) (p : option sqlite3_stmt) (e e' : engine)
    (Hprepare : sqlite3_prepare_v2 (native w) (db d) sql = (rc, p, e))
    (Hstep : sqlite3_step e p = (res, e')) :
  (fst (exec d sql w) = Returns tt <->
   rc = SQLITE_OK /\ (res = SQLITE_ROW \/ res = SQLITE_DONE)) /\
  native (snd (exec d sql w))
  = (if rc =? SQLITE_OK then sqlite3_finalize e' p else e).
Proof.
  rewrite (exec_run d sql w rc res p e e' Hprepare Hstep).
  destruct (Z.eqb_spec rc SQLITE_OK) as [Hok|Hbad]; cbn [fst snd native].
  - split; [|reflexivity].
    destruct (Z.eqb_spec res SQLITE_ROW) as [Hrow|Hnrow]; cbn [orb].
    + split; [intros _; split; [assumption | now left] | reflexivity].
    + destruct (Z.eqb_spec res SQLITE_DONE) as [Hdone|Hndone].
      * split; [intros _; split; [assumption | now right] | reflexivity].
      * split; [discriminate | intros [_ [H|H]]; contradiction].
  - split; [|reflexivity]. split; [discriminate | intros [H _]; contradiction].
Qed.

Lemma exec_succeeds_iff_witness :
  fst (exec echo_db "SELECT 1" (echo_env [SQLITE_ROW])) = Returns tt.
Proof.
  apply (proj2 (proj1 (exec_succeeds_iff echo_db "SELECT 1" (echo_env [SQLITE_ROW])
                         SQLITE_OK SQLITE_ROW (Some 0%nat)
                         (snd (Echo.prepare_v2 (echo_fresh [SQLITE_ROW]) (Some tt)
                                 "SELECT 1"))
                         (snd (Echo.step
                                 (snd (Echo.prepare_v2 (echo_fresh [SQLITE_ROW])
                                         (Some tt) "SELECT 1"))
                                 (Some 0%nat)))
                         eq_refl eq_refl))).
  split; [reflexivity | left; reflexivity].
Defined.

(** [begin_transaction] on a connection no shared pointer owns throws
    [std::bad_weak_ptr] and does nothing else.  On an owned connection it
    is one [exec("BEGIN")]: when that throws, the exception is the one of
    the call and there is no scope; when it returns, the call gives an
    active scope holding the connection and the count of uncaught
    exceptions of that moment.  The destructor of that scope, reached
    without a member call, is [exec("COMMIT")] when the count is the same
    at exit and the guarded [exec("ROLLBACK")] otherwise, so that the
    statements passed to [exec] over the life of the scope are [BEGIN] and
    then [COMMIT] or [ROLLBACK]. *)
Theorem transaction_brackets {E : NativeEngine}
    (d : SqliteDatabase) (uncaught_exceptions : Z) (w : Env) :
  begin_transaction false d uncaught_exceptions w = (bad_weak_ptr, w) /\
  begin_transaction true d uncaught_exceptions w
  = (constructed
       match fst (exec d "BEGIN" w) with
       | Returns _ =>
           Returns {| Transaction.database := Some d;
                      Transaction.exception_count := uncaught_exceptions |}
       | Throws e => Throws e
       end,
     snd (exec d "BEGIN" w)) /\
  forall at_exit : Z,
    Transaction.destroy at_exit
      {| Transaction.env := snd (exec d "BEGIN" w);
         Transaction.this :=
           {| Transaction.database := Some d;
              Transaction.exception_count := uncaught_exceptions |} |}
    = (if uncaught_exceptions =? at_exit
       then Transaction.in_env (exec d "COMMIT")
       else try_catch (Transaction.in_env (exec d "ROLLBACK"))
              (fun e => Transaction.in_env
                          (write_cerr ("Transaction rollback error: " ++ what e))))
        {| Transaction.env := snd (exec d "BEGIN" w);
           Transaction.this :=
             {| Transaction.database := Some d;
                Transaction.exception_count := uncaught_exceptions |} |} /\
    issued (Transaction.env
              (Transaction.lifetime [] at_exit
                 {| Transaction.env := snd (exec d "BEGIN" w);
                    Transaction.this :=
                      {| Transaction.database := Some d;
                         Transaction.exception_count := uncaught_exceptions |} |}))
    = (issued w ++ ["BEGIN";
                    if uncaught_exceptions =? at_exit
                    then "COMMIT" else "ROLLBACK"])%list.
Proof.
  split; [reflexivity|]. split.
  - unfold begin_transaction, Transaction.create, bind.
    destruct (exec d "BEGIN" w) as [[[]|e] w']; reflexivity.
  - intro at_exit. split.
    + unfold Transaction.destroy, bind, get.
      cbn [Transaction.this Transaction.database Transaction.exception_count].
      destruct (uncaught_exceptions =? at_exit); reflexivity.
    + unfold Transaction.lifetime. cbn [Transaction.run_calls].
      rewrite (destroy_issues _ d at_exit) by reflexivity.
      cbn [Transaction.env Transaction.this Transaction.exception_count].
      destruct (exec_frame d "BEGIN" w) as [r [e ->]]. cbn [snd issued].
      now rewrite <- app_assoc.
Qed.

(** In the destructor, a [ROLLBACK] that fails is reported on [std::cerr]
    as one line, "Transaction rollback error: " followed by the message of
    the exception; a [ROLLBACK] that succeeds and the [COMMIT] path write
    nothing there. *)
Theorem rollback_failure_is_reported {E : NativeEngine}
    (s : Transaction.State) (d : SqliteDatabase) (uncaught_exceptions : Z)
    (Hactive : Transaction.database (Transaction.this s) = Some d) :
  cerr (Transaction.env (snd (Transaction.destroy uncaught_exceptions s)))
  = (cerr (Transaction.env s)
       ++ (if Transaction.exception_count (Transaction.this s) =? uncaught_exceptions
           then []
           else match fst (Transaction.in_env (exec d "ROLLBACK") s) with
                | Returns _ => []
                | Throws e => [("Transaction rollback error: " ++ what e)%string]
                end))%list.
Proof.
  unfold Transaction.destroy, bind, get. rewrite Hactive.
  destruct (Transaction.exception_count (Transaction.this s) =? uncaught_exceptions).
  - destruct (in_env_exec d "COMMIT" s) as [r [e ->]]. cbn. now rewrite app_nil_r.
  - unfold try_catch. destruct (in_env_exec d "ROLLBACK" s) as [r [e ->]].
    destruct r; cbn; [now rewrite app_nil_r | reflexivity].
Qed.

Lemma rollback_failure_is_reported_witness :
  cerr (Transaction.env (snd (Transaction.destroy 1 (echo_scope [SQLITE_BUSY]))))
  = ["Transaction rollback error: database is locked"].
Proof.
  rewrite (rollback_failure_is_reported (echo_scope [SQLITE_BUSY]) echo_db 1 eq_refl).
  reflexivity.
Defined.


Lemma segments_rebuild_text_witness :
  "1,2,,3," = String.concat "," (segments "," "1,2,,3,") ++ "," /\
  segments "," "" = [].
Proof.
  split.
  - exact (proj1 (segments_rebuild_text "," "1,2,,3,")).
  - apply (segments_rebuild_text "," ""). reflexivity.
Defined.
